(** * TalentScan: the resume scorer of [app.py], embedded and verified

    The development follows the layout of [app.py]:
    - [PyStr]: the [str] methods the program calls ([lower], [strip],
      [in], [rsplit], [join], [split]);
    - [PyRe]: the two [re.findall] scans of the program;
    - [PyNum]: Python's [int] and [float] arithmetic as far as the scorer
      uses it, floats being IEEE-754 binary64 ([SpecFloat]);
    - [App]: [find_years_of_experience], [find_education], [score_resume],
      [allowed_file], [extract_text], [submit] and [admin], over an explicit
      record store ([App.Db]);
    - [Spec]: the words of the specification (occurrences of a pattern,
      causes of a rejection, order of a listing) in which the theorems
      are stated.

    A Python [str] is modelled as the list of its code points, restricted to
    code points below 256 (one [ascii] each); on this range [lower] keeps the
    length of a string and the character classes below are exactly those of
    CPython. *)

From Stdlib Require Import ZArith QArith Qround List Ascii String Bool Lia Lqa.
From Stdlib Require Import Permutation Sorted SpecFloat.
Import ListNotations.

(** ** Strings *)

Module PyStr.

Definition str := list ascii.

(** [py "abc"] is the Python literal ["abc"]. *)
Definition py (s : string) : str := list_ascii_of_string s.

Definition code (c : ascii) : N := N_of_ascii c.

Definition in_range (lo hi : N) (c : ascii) : bool :=
  ((lo <=? code c) && (code c <=? hi))%N.

(** [c.isspace()], which is also the class [\s] of [re] on [str]. *)
Definition isspace (c : ascii) : bool :=
  in_range 9 13 c || in_range 28 32 c || (code c =? 133)%N || (code c =? 160)%N.

(** The class [\d] of [re]: the decimal digits. *)
Definition is_decimal (c : ascii) : bool := in_range 48 57 c.

(** [c.isdigit()]: the decimal digits and the superscripts 1, 2, 3. *)
Definition isdigit_char (c : ascii) : bool :=
  is_decimal c || (code c =? 178)%N || (code c =? 179)%N || (code c =? 185)%N.

(** [c.lower()]: [A-Z] and the accented capitals U+00C0..U+00DE (the
    multiplication sign U+00D7 apart) move up by 32. *)
Definition lower_char (c : ascii) : ascii :=
  if in_range 65 90 c || (in_range 192 222 c && negb (code c =? 215)%N)
  then ascii_of_N (code c + 32)
  else c.

Definition lower (s : str) : str := map lower_char s.

(** [s.isdigit()]: non empty and every character a digit. *)
Definition isdigit (s : str) : bool :=
  match s with
  | [] => false
  | _ => forallb isdigit_char s
  end.

(** Truth value of a string: [bool(s)]. *)
Definition truthy (s : str) : bool :=
  match s with
  | [] => false
  | _ => true
  end.

Fixpoint lstrip (s : str) : str :=
  match s with
  | c :: s' => if isspace c then lstrip s' else s
  | [] => []
  end.

Definition rstrip (s : str) : str := rev (lstrip (rev s)).

(** [s.strip()] *)
Definition strip (s : str) : str := rstrip (lstrip s).

Definition str_eqb (a b : str) : bool :=
  if list_eq_dec ascii_dec a b then true else false.

Fixpoint startswith (p t : str) : bool :=
  match p, t with
  | [], _ => true
  | a :: p', b :: t' => Ascii.eqb a b && startswith p' t'
  | _ :: _, [] => false
  end.

(** [needle in hay] on strings: substring containment. *)
Fixpoint contains (needle hay : str) : bool :=
  startswith needle hay ||
  match hay with
  | [] => false
  | _ :: hay' => contains needle hay'
  end.

(** [x in xs] on a list or set of strings. *)
Definition mem (x : str) (xs : list str) : bool := existsb (str_eqb x) xs.

(** [sep.join(xs)] *)
Fixpoint join (sep : str) (xs : list str) : str :=
  match xs with
  | [] => []
  | [x] => x
  | x :: xs' => x ++ sep ++ join sep xs'
  end.

(** [s.split(",")]: the pieces between the occurrences of one separator
    character; [cur] is the piece being read, in reverse. *)
Fixpoint split_on (sep : ascii) (cur : str) (s : str) : list str :=
  match s with
  | [] => [rev cur]
  | c :: s' =>
      if Ascii.eqb c sep then rev cur :: split_on sep [] s'
      else split_on sep (c :: cur) s'
  end.

Definition split (sep : ascii) (s : str) : list str := split_on sep [] s.

(** [s.rsplit(".", 1)]: [None] stands for the one-element list [[s]] when [s]
    has no dot, [Some (stem, ext)] for [[stem, ext]], split at the last dot. *)
Fixpoint rsplit_dot (s : str) : option (str * str) :=
  match s with
  | [] => None
  | c :: s' =>
      match rsplit_dot s' with
      | Some (stem, ext) => Some (c :: stem, ext)
      | None => if Ascii.eqb c "." then Some ([], s') else None
      end
  end.

(** Bytewise order on strings, as SQLite's BINARY collation compares TEXT. *)
Fixpoint str_leb (a b : str) : bool :=
  match a, b with
  | [], _ => true
  | _ :: _, [] => false
  | x :: a', y :: b' =>
      if (code x <? code y)%N then true
      else if (code y <? code x)%N then false
      else str_leb a' b'
  end.

(** The substring relation that [contains] decides. *)
Definition occurs (needle hay : str) : Prop :=
  exists pre suf, hay = pre ++ needle ++ suf.

End PyStr.
Import PyStr.

(** ** Regular expressions

    The program scans with two patterns.  Neither can match the empty
    string, and in both every repetition is a character class followed by a
    character outside that class, so the backtracking of [re] never returns
    a shorter repetition than the greedy one: each alternative is the
    left-to-right scan written below.  For the pattern of the years this is
    made precise further down: the match at a position is unique
    ([years_match_functional]) and the scan finds it ([match_years_exact]),
    so neither the order of the alternatives nor backtracking can matter. *)

Module PyRe.

(** Greedy repetition of a character class: the longest prefix of [s] in the
    class, and what follows it. *)
Fixpoint span (p : ascii -> bool) (s : str) : str * str :=
  match s with
  | c :: s' =>
      if p c then let (a, b) := span p s' in (c :: a, b) else ([], s)
  | [] => ([], [])
  end.

(** A character of the pattern against a character of the text, under
    [re.I]. *)
Definition eqb_i (a c : ascii) : bool := Ascii.eqb (lower_char a) (lower_char c).

(** A literal of the pattern at the head of [s], under [re.I]; the rest of
    [s] when it is there. *)
Fixpoint literal_i (lit s : str) : option str :=
  match lit, s with
  | [], _ => Some s
  | a :: lit', c :: s' => if eqb_i a c then literal_i lit' s' else None
  | _ :: _, [] => None
  end.

(** [(\d+)\s*\+\s*years] at the head of [s]: the group and the rest. *)
Definition alt_plus_years (s : str) : option (str * str) :=
  let (ds, r1) := span is_decimal s in
  if truthy ds then
    let (_, r2) := span isspace r1 in
    match literal_i (py "+") r2 with
    | Some r3 =>
        let (_, r4) := span isspace r3 in
        match literal_i (py "years") r4 with
        | Some r5 => Some (ds, r5)
        | None => None
        end
    | None => None
    end
  else None.

(** [(\d+)\s+years] at the head of [s]. *)
Definition alt_space_years (s : str) : option (str * str) :=
  let (ds, r1) := span is_decimal s in
  if truthy ds then
    let (ws, r2) := span isspace r1 in
    if truthy ws then
      match literal_i (py "years") r2 with
      | Some r3 => Some (ds, r3)
      | None => None
      end
    else None
  else None.

(** [(\d+)-year] at the head of [s]. *)
Definition alt_dash_year (s : str) : option (str * str) :=
  let (ds, r1) := span is_decimal s in
  if truthy ds then
    match literal_i (py "-year") r1 with
    | Some r2 => Some (ds, r2)
    | None => None
    end
  else None.

(** [(\d+)\s*\+\s*years|(\d+)\s+years|(\d+)-year] at the head of [s]: the
    three groups as [findall] reports them (a group that took no part is the
    empty string) and the rest of the text. *)
Definition match_years (s : str) : option ((str * str * str) * str) :=
  match alt_plus_years s with
  | Some (d, r) => Some ((d, [], []), r)
  | None =>
      match alt_space_years s with
      | Some (d, r) => Some (([], d, []), r)
      | None =>
          match alt_dash_year s with
          | Some (d, r) => Some (([], [], d), r)
          | None => None
          end
      end
  end.

(** The class [[A-Za-z\+#]]. *)
Definition is_word_char (c : ascii) : bool :=
  in_range 65 90 c || in_range 97 122 c || Ascii.eqb c "+" || Ascii.eqb c "#".

(** [[A-Za-z\+#]{2,}] at the head of [s]. *)
Definition match_word (s : str) : option (str * str) :=
  let (w, r) := span is_word_char s in
  if (2 <=? List.length w)%nat then Some (w, r) else None.

(** [re.findall]: try the pattern at the current position; on a match report
    it and go on after it, otherwise move one character on.  The search
    stops after the end of the text; [fuel] bounds the number of positions
    tried. *)
Fixpoint scan {A} (m : str -> option (A * str)) (fuel : nat) (s : str) : list A :=
  match fuel with
  | O => []
  | S fuel' =>
      match m s with
      | Some (x, rest) => x :: scan m fuel' rest
      | None =>
          match s with
          | [] => []
          | _ :: s' => scan m fuel' s'
          end
      end
  end.

Definition findall {A} (m : str -> option (A * str)) (s : str) : list A :=
  scan m (S (List.length s)) s.

End PyRe.
Import PyRe.

(** ** Numbers

    [int] is [Z].  [float] is IEEE-754 binary64, computed with the
    operations of [SpecFloat] at precision 53. *)

Module PyNum.

Definition prec : Z := 53.
Definition emax : Z := 1024.

Inductive num :=
  | Int (z : Z)
  | Float (f : spec_float).

(** [sys.get_int_max_str_digits()], at its default: [int] refuses a decimal
    string of more digits with [ValueError]. *)
Definition int_max_str_digits : nat := 4300.

(** The integer [z] as a mantissa with exponent 0 (exact, not normalised). *)
Definition exact (z : Z) : spec_float :=
  match z with
  | Z0 => S754_zero false
  | Zpos p => S754_finite false p 0
  | Zneg p => S754_finite true p 0
  end.

(** [float(z)]: the float nearest to [z].  (Python raises [OverflowError]
    beyond the range of floats; the program converts only the constants
    0, 4, 7, 10, 30, 70 and 100.) *)
Definition float_of_int (z : Z) : spec_float :=
  binary_normalize prec emax z 0 false.

Definition to_float (x : num) : spec_float :=
  match x with
  | Int z => float_of_int z
  | Float f => f
  end.

(** [a / b] on two [int]s, [b] not zero: the float nearest to the exact
    quotient, whatever the size of [a] and [b]. *)
Definition int_truediv (a b : Z) : spec_float :=
  SFdiv prec emax (exact a) (exact b).

(** [x / y], the divisor not zero. *)
Definition truediv (x y : num) : num :=
  match x, y with
  | Int a, Int b => Float (int_truediv a b)
  | _, _ => Float (SFdiv prec emax (to_float x) (to_float y))
  end.

(** [x * y] *)
Definition mul (x y : num) : num :=
  match x, y with
  | Int a, Int b => Int (a * b)
  | _, _ => Float (SFmul prec emax (to_float x) (to_float y))
  end.

(** [x + y] *)
Definition add (x y : num) : num :=
  match x, y with
  | Int a, Int b => Int (a + b)
  | _, _ => Float (SFadd prec emax (to_float x) (to_float y))
  end.

(** The exact value of a number on the extended rational line. *)
Inductive ext :=
  | NaN
  | NegInf
  | Fin (q : Q)
  | PosInf.

Definition Q_of_finite (s : bool) (m : positive) (e : Z) : Q :=
  let z := if s then Zneg m else Zpos m in
  match e with
  | Z0 => inject_Z z
  | Zpos p => inject_Z (z * Z.pow_pos 2 p)
  | Zneg p => Qmake z (Pos.pow 2 p)
  end.

Definition float_value (f : spec_float) : ext :=
  match f with
  | S754_nan => NaN
  | S754_infinity s => if s then NegInf else PosInf
  | S754_zero _ => Fin 0
  | S754_finite s m e => Fin (Q_of_finite s m e)
  end.

Definition value (x : num) : ext :=
  match x with
  | Int z => Fin (inject_Z z)
  | Float f => float_value f
  end.

Definition Qltb (p q : Q) : bool := negb (Qle_bool q p).

(** [x < y]: Python compares an [int] and a [float] by their exact values;
    a comparison with NaN is false. *)
Definition lt (x y : num) : bool :=
  match value x, value y with
  | NaN, _ | _, NaN => false
  | _, NegInf => false
  | NegInf, _ => true
  | PosInf, _ => false
  | _, PosInf => true
  | Fin p, Fin q => Qltb p q
  end.

(** [min(x, y)]: the first argument unless the second is smaller. *)
Definition min (x y : num) : num := if lt y x then y else x.

(** The integer nearest to [q], a tie going to the even one. *)
Definition round_half_even (q : Q) : Z :=
  let f := Qfloor q in
  match Qcompare (q - inject_Z f) (1 # 2) with
  | Lt => f
  | Gt => f + 1
  | Eq => if Z.even f then f else f + 1
  end.

Definition sign_of (f : spec_float) : bool :=
  match f with
  | S754_zero s | S754_infinity s | S754_finite s _ _ => s
  | S754_nan => false
  end.

(** The float nearest to [k / 10], the decimal with [k] tenths; a zero
    keeps the sign [s]. *)
Definition float_of_tenths (s : bool) (k : Z) : spec_float :=
  if (k =? 0)%Z then S754_zero s else int_truediv k 10.

(** [round(x, 1)]: an [int] is returned as it is; a finite float is rounded
    on its exact value to the nearest tenth, ties to even, and the float
    nearest to that decimal is returned; infinities and NaN are returned as
    they are. *)
Definition round1 (x : num) : num :=
  match x with
  | Int z => Int z
  | Float f =>
      match float_value f with
      | Fin q => Float (float_of_tenths (sign_of f) (round_half_even (q * 10)))
      | _ => Float f
      end
  end.

End PyNum.

(** ** The program *)

Module App.

Import PyNum.

(** [[f(x) for x in xs if c(x)]] *)
Fixpoint comprehension {A B} (f : A -> B) (c : A -> bool) (xs : list A) : list B :=
  match xs with
  | [] => []
  | x :: xs' =>
      if c x then f x :: comprehension f c xs' else comprehension f c xs'
  end.

(** The number [int] reads from a string of decimal digits, digit by
    digit. *)
Definition int_step (acc : Z) (c : ascii) : Z :=
  (10 * acc + (Z.of_N (code c) - 48))%Z.

Definition digits_value (token : str) : Z := fold_left int_step token 0%Z.

(** [int(token)] on a string of digits: the number that its decimal
    digits write.  [None] stands for the [ValueError] that [int] raises on
    the empty string, on a digit that is no decimal digit (the superscripts
    pass [isdigit] but are refused by [int]), and on a string of more than
    [int_max_str_digits] digits, leading zeros counted. *)
Definition int_of_str (token : str) : option Z :=
  if negb (truthy token && forallb is_decimal token) then None
  else if (int_max_str_digits <? List.length token)%nat then None
  else Some (digits_value token).

(** [max(nums)] on a non-empty list of [int]s, given as head and tail. *)
Definition max_of (n : Z) (ns : list Z) : Z := fold_left Z.max ns n.

(** The inner loop of [find_years_of_experience] on the tokens of one
    tuple, [nums] being the list so far:
    [[for token in t: if token and token.isdigit(): nums.append(int(token))]].
    [None]: [int] raised. *)
Fixpoint append_tokens (t : list str) (nums : list Z) : option (list Z) :=
  match t with
  | [] => Some nums
  | token :: t' =>
      if truthy token && isdigit token then
        match int_of_str token with
        | Some n => append_tokens t' (nums ++ [n])
        | None => None
        end
      else append_tokens t' nums
  end.

(** The outer loop, on the tuples of [findall]. *)
Fixpoint append_matches (matches : list (str * str * str)) (nums : list Z)
    : option (list Z) :=
  match matches with
  | [] => Some nums
  | (g1, g2, g3) :: matches' =>
      match append_tokens [g1; g2; g3] nums with
      | Some nums' => append_matches matches' nums'
      | None => None
      end
  end.

(** [find_years_of_experience]; [None]: a [ValueError] left the function. *)
Definition find_years_of_experience (text : str) : option Z :=
  let matches := findall match_years text in
  match append_matches matches [] with
  | Some [] => Some 0%Z
  | Some (n :: ns) => Some (max_of n ns)
  | None => None
  end.

(** [find_education] *)
Definition find_education (text : str) : str :=
  let text_l := lower text in
  if contains (py "phd") text_l || contains (py "ph.d") text_l
     || contains (py "doctorate") text_l
  then py "PhD"
  else if contains (py "master") text_l || contains (py "ms ") text_l
          || contains (py "m.sc") text_l || contains (py "Post-graduate") text_l
  then py "Master"
  else if contains (py "bachelor") text_l || contains (py "b.s") text_l
          || contains (py "bs ") text_l || contains (py "under-graduate") text_l
          || contains (py "be") text_l
  then py "Bachelor"
  else py "Not specified".

(** The dictionary [score_resume] returns. *)
Record result := {
  score : num;
  matched_skills : list str;
  years : Z;
  education : str
}.

(** [score_resume]; [None]: the [ValueError] of [find_years_of_experience]
    left the function. *)
Definition score_resume (text : str) (required_skills : list str) : option result :=
  let text_l := lower text in
  let skills :=
    comprehension (fun s => lower (strip s)) (fun s => truthy (strip s))
      required_skills in
  let matched_skills :=
    comprehension (fun s => s) (fun s => contains s text_l) skills in
  let skills_score :=
    match skills with
    | [] => Int 0
    | _ =>
        mul (truediv (Int (Z.of_nat (List.length matched_skills)))
                     (Int (Z.of_nat (List.length skills))))
            (Int 70)
    end in
  match find_years_of_experience text with
  | None => None
  | Some years =>
      let years_score := mul (truediv (Int (Z.min years 10)) (Int 10)) (Int 30) in
      let education := find_education text in
      let edu_score :=
        if str_eqb education (py "PhD") then 10%Z
        else if str_eqb education (py "Master") then 7%Z
        else if str_eqb education (py "Bachelor") then 4%Z
        else 0%Z in
      let total := add (add skills_score years_score) (Int edu_score) in
      let total := round1 (min total (Int 100)) in
      Some {| score := total;
              matched_skills := matched_skills;
              years := years;
              education := education |}
  end.

(** *** Configuration *)

Definition UPLOAD_FOLDER : str := py "uploads".
Definition ALLOWED_EXTENSIONS : list str := [py "pdf"; py "docx"].

(** [allowed_file] *)
Definition allowed_file (filename : str) : bool :=
  contains (py ".") filename &&
  match rsplit_dot filename with
  | Some (_, ext) => mem (lower ext) ALLOWED_EXTENSIONS
  | None => false
  end.

(** *** The record store: table [resumes] *)

Module Db.

Record row := {
  id : Z;
  name : str;
  email : str;
  filename : str;
  score : spec_float;
  matches : str;
  years_experience : Z;
  education : str;
  job_description : str;
  created_at : str
}.

(** The nine values bound to the [?] of the INSERT statement. *)
Record values := {
  v_name : str;
  v_email : str;
  v_filename : str;
  v_score : num;
  v_matches : str;
  v_years_experience : Z;
  v_education : str;
  v_job_description : str;
  v_created_at : str
}.

(** The table in insertion order, and the largest id given out so far
    (AUTOINCREMENT). *)
Record t := {
  rows : list row;
  last_id : Z
}.

Definition empty : t := {| rows := []; last_id := 0 |}.

(** A Python [int] is bound as a 64-bit INTEGER; a larger one raises
    [OverflowError] before the statement runs. *)
Definition fits_int64 (z : Z) : bool :=
  ((- 2 ^ 63 <=? z) && (z <=? 2 ^ 63 - 1))%Z.

(** [INSERT INTO resumes (name, ..., created_at) VALUES (?, ..., ?)] and
    [commit]: one row more, with the next id; the REAL column [score] holds
    a float, an [int] being converted.  [None]: the statement raised. *)
Definition insert (d : t) (v : values) : option t :=
  if fits_int64 (v_years_experience v) then
    let r := {| id := last_id d + 1;
                name := v_name v;
                email := v_email v;
                filename := v_filename v;
                score := to_float (v_score v);
                matches := v_matches v;
                years_experience := v_years_experience v;
                education := v_education v;
                job_description := v_job_description v;
                created_at := v_created_at v |} in
    Some {| rows := rows d ++ [r]; last_id := last_id d + 1 |}
  else None.

(** [r] goes before the first row whose [created_at] is smaller. *)
Fixpoint place (r : row) (l : list row) : list row :=
  match l with
  | [] => [r]
  | x :: l' =>
      if str_leb (created_at r) (created_at x) then x :: place r l'
      else r :: l
  end.

(** [SELECT * FROM resumes ORDER BY created_at DESC] *)
Definition select_all_desc (d : t) : list row :=
  fold_right place [] (rows d).

(** The columns of [r] hold the values [v] that an INSERT statement
    supplied, the score as a REAL. *)
Definition supplied (r : row) (v : values) : Prop :=
  name r = v_name v /\ email r = v_email v /\ filename r = v_filename v /\
  score r = to_float (v_score v) /\
  matches r = v_matches v /\ years_experience r = v_years_experience v /\
  education r = v_education v /\ job_description r = v_job_description v /\
  created_at r = v_created_at v.

End Db.

(** *** The request handlers *)

(** The uploaded file: its name and its content. *)
Record upload := {
  up_filename : str;
  up_data : str
}.

(** [request.form] and [request.files]. *)
Record request := {
  form : list (str * str);
  files : list (str * upload)
}.

(** [d.get(key, default)] *)
Fixpoint get {V} (d : list (str * V)) (key : str) : option V :=
  match d with
  | [] => None
  | (k, v) :: d' => if str_eqb k key then Some v else get d' key
  end.

Definition get_default (d : list (str * str)) (key dflt : str) : str :=
  match get d key with
  | Some v => v
  | None => dflt
  end.

(** What [datetime.utcnow()] gives at its calls in [submit]: formatted as
    [%Y%m%d%H%M%S] for the file name, as ISO-8601 for [created_at], and for
    the result page. *)
Record clock := {
  now_compact : str;
  now_iso : str;
  now_page : str
}.

(** The state the handlers work on: the database and the upload folder
    (path and content of each saved file, the latest first). *)
Record world := {
  db : Db.t;
  saved : list (str * str)
}.

(** The context of [result.html]. *)
Record result_page := {
  p_name : str;
  p_email : str;
  p_score : num;
  p_matched_skills : list str;
  p_years : Z;
  p_education : str;
  p_filename : str;
  p_timestamp : str
}.

Inductive response :=
  | Redirect (flash : str)        (* [flash(...)]; [redirect(url_for("index"))] *)
  | Page (p : result_page)        (* [render_template("result.html", ...)] *)
  | Admin (rows : list Db.row)    (* [render_template("admin.html", rows=rows)] *)
  | Failure.                      (* an exception left the handler: no flash, no page *)

(** [os.path.join(folder, filename)] *)
Definition path_join (folder filename : str) : str :=
  if startswith (py "/") filename then filename
  else folder ++ py "/" ++ filename.

(** The skills of the form: [[s.strip() for s in skills_raw.split(",") if s.strip()]] *)
Definition form_skills (skills_raw : str) : list str :=
  comprehension strip (fun s => truthy (strip s)) (split "," skills_raw).

Definition stop : list str :=
  [py "and"; py "or"; py "the"; py "with"; py "to"; py "for"; py "of";
   py "in"; py "on"; py "a"; py "an"].

(** The fallback of [submit] when no skill was given:
    [[w for w in re.findall(r"[A-Za-z\+#]{2,}", job_description)
        if w.lower() not in stop][:10]] *)
Definition derived_skills (job_description : str) : list str :=
  let words := findall match_word job_description in
  firstn 10 (comprehension (fun w => w) (fun w => negb (mem (lower w) stop)) words).

Section Handlers.

(** What the handlers call outside the program: [werkzeug]'s
    [secure_filename]; the operating system, which opens a file at a path
    of the upload folder and writes the data, or refuses and makes
    [file.save] raise (a name too long, a folder that is missing or
    read-only); and the two document parsers, which read the file at a path
    of the upload folder and return its text or raise ([None]). *)
Variable secure_filename : str -> str.
Variable save_ok : list (str * str) -> str -> str -> bool.
Variable extract_text_from_pdf : list (str * str) -> str -> option str.
Variable docx2txt_process : list (str * str) -> str -> option str.

(** [extract_text]: an exception of a parser is logged and gives [""]. *)
Definition extract_text (fs : list (str * str)) (filepath ext : str) : str :=
  if str_eqb ext (py "pdf") then
    match extract_text_from_pdf fs filepath with
    | Some text => text
    | None => []
    end
  else if str_eqb ext (py "docx") then
    match docx2txt_process fs filepath with
    | Some text => text
    | None => []
    end
  else [].

(** [submit], the handler of [POST /submit].  Nothing in it catches an
    exception: [Failure] is the answer when [file.save] raises, when the
    stored name has no dot left for [rsplit], when [score_resume] raises and
    when the [INSERT] fails. *)
Definition submit (w : world) (rq : request) (ck : clock) : response * world :=
  let name := strip (get_default (form rq) (py "name") []) in
  let email := strip (get_default (form rq) (py "email") []) in
  let job_description := strip (get_default (form rq) (py "job_description") []) in
  let skills_raw := strip (get_default (form rq) (py "skills") []) in
  let skills := form_skills skills_raw in
  match get (files rq) (py "resume") with
  | None => (Redirect (py "Please attach a resume (PDF or DOCX)."), w)
  | Some file =>
      if negb (truthy (up_filename file)) then
        (Redirect (py "Please attach a resume (PDF or DOCX)."), w)
      else if negb (allowed_file (up_filename file)) then
        (Redirect (py "Unsupported file type. Allowed: pdf, docx"), w)
      else
        let filename :=
          secure_filename (now_compact ck ++ py "_" ++ up_filename file) in
        let filepath := path_join UPLOAD_FOLDER filename in
        if negb (save_ok (saved w) filepath (up_data file)) then (Failure, w)
        else
        let w1 := {| db := db w; saved := (filepath, up_data file) :: saved w |} in
        match rsplit_dot filename with
        | None => (Failure, w1)
        | Some (_, ext0) =>
            let ext := lower ext0 in
            let text := extract_text (saved w1) filepath ext in
            if negb (truthy text) then
              (Redirect (py "Could not extract text from the resume. Make sure the file is valid."), w1)
            else
              let skills :=
                match skills with
                | [] => derived_skills job_description
                | _ => skills
                end in
              match score_resume text skills with
              | None => (Failure, w1)
              | Some result =>
                  match Db.insert (db w1)
                          {| Db.v_name := name;
                             Db.v_email := email;
                             Db.v_filename := filename;
                             Db.v_score := score result;
                             Db.v_matches := join (py ",") (matched_skills result);
                             Db.v_years_experience := years result;
                             Db.v_education := education result;
                             Db.v_job_description := job_description;
                             Db.v_created_at := now_iso ck |} with
                  | None => (Failure, w1)
                  | Some db' =>
                      (Page {| p_name := name;
                               p_email := email;
                               p_score := score result;
                               p_matched_skills := matched_skills result;
                               p_years := years result;
                               p_education := education result;
                               p_filename := filename;
                               p_timestamp := now_page ck |},
                       {| db := db'; saved := saved w1 |})
                  end
              end
        end
  end.

(** [admin], the handler of [GET /admin]. *)
Definition admin (w : world) : response * world :=
  (Admin (Db.select_all_desc (db w)), w).

End Handlers.

End App.
Import App.

(** ** The vocabulary of the specification *)

Module Spec.

(** The marker substrings of the three categories of education, as
    [find_education] tests them. *)
Definition phd_markers : list str :=
  [py "phd"; py "ph.d"; py "doctorate"].
Definition master_markers : list str :=
  [py "master"; py "ms "; py "m.sc"; py "Post-graduate"].
Definition bachelor_markers : list str :=
  [py "bachelor"; py "b.s"; py "bs "; py "under-graduate"; py "be"].

(** One of the markers [ms] occurs in [t]. *)
Definition has_marker (ms : list str) (t : str) : Prop :=
  exists m, In m ms /\ occurs m t.

(** [l1] is [l2] with some elements left out, the others in their order. *)
Inductive subseq {A} : list A -> list A -> Prop :=
  | subseq_nil : subseq [] []
  | subseq_keep x l1 l2 : subseq l1 l2 -> subseq (x :: l1) (x :: l2)
  | subseq_drop x l1 l2 : subseq l1 l2 -> subseq l1 (x :: l2).

(** The matched skills in the words of the specification: trim each
    skill, drop the empty ones, lowercase, and keep those contained in the
    lowercased text. *)
Definition matched_spec (text : str) (required : list str) : list str :=
  filter (fun s => contains s (lower text))
    (map lower (filter truthy (map strip required))).

(** Every character of [s] is in the class [p]. *)
Definition all (p : ascii -> bool) (s : str) : Prop :=
  Forall (fun c => p c = true) s.

(** [y] is the literal [lit] up to case. *)
Definition same_i (lit y : str) : Prop :=
  Forall2 (fun a c => eqb_i a c = true) lit y.

(** [years_match s n rest]: one of the patterns "<N>+ years", "<N> years",
    "<N>-year" matches at the head of [s], with the digits [n] for <N>,
    and [rest] follows the match. *)
Inductive years_match : str -> str -> str -> Prop :=
  | ym_plus n ws1 ws2 y rest :
      n <> [] -> all is_decimal n -> all isspace ws1 -> all isspace ws2 ->
      same_i (py "years") y ->
      years_match (n ++ ws1 ++ py "+" ++ ws2 ++ y ++ rest) n rest
  | ym_space n ws y rest :
      n <> [] -> all is_decimal n -> ws <> [] -> all isspace ws ->
      same_i (py "years") y ->
      years_match (n ++ ws ++ y ++ rest) n rest
  | ym_dash n y rest :
      n <> [] -> all is_decimal n -> same_i (py "-year") y ->
      years_match (n ++ y ++ rest) n rest.

(** [f] has the sign [s] and is no NaN. *)
Definition sign_is (s : bool) (f : spec_float) : Prop :=
  match f with
  | S754_zero s' | S754_infinity s' | S754_finite s' _ _ => s' = s
  | S754_nan => False
  end.

(** [f] is +0, a positive finite float or +infinity. *)
Definition not_negative (f : spec_float) : Prop := sign_is false f.

(** The value of [x] is a number from 0 to 100. *)
Definition in_0_100 (x : PyNum.num) : Prop :=
  exists q : Q, PyNum.value x = PyNum.Fin q /\ (0 <= q)%Q /\ (q <= 100)%Q.

Definition in_0_100b (x : PyNum.num) : bool :=
  match PyNum.value x with
  | PyNum.Fin q => Qle_bool 0 q && Qle_bool q 100
  | _ => false
  end.

(** [a] comes before [b] in a listing by [created_at], latest first. *)
Definition later_or_same (a b : Db.row) : Prop :=
  str_leb (Db.created_at b) (Db.created_at a) = true.

(** The extension of [filename], what follows its last dot, is "pdf" or
    "docx" up to case. *)
Definition has_allowed_extension (filename : str) : Prop :=
  exists stem ext,
    filename = stem ++ py "." ++ ext /\ ~ In "."%char ext /\
    (lower ext = py "pdf" \/ lower ext = py "docx").

Section Causes.

Variable secure_filename : str -> str.
Variable save_ok : list (str * str) -> str -> str -> bool.
Variable extract_text_from_pdf : list (str * str) -> str -> option str.
Variable docx2txt_process : list (str * str) -> str -> option str.

(** The text extracted from the upload [f] once it is saved under its
    stored name; [None] when it could not be saved or the stored name has
    no extension: then no text is extracted at all. *)
Definition extracted_text (w : world) (ck : clock) (f : upload) : option str :=
  let filename := secure_filename (now_compact ck ++ py "_" ++ up_filename f) in
  let filepath := path_join UPLOAD_FOLDER filename in
  if save_ok (saved w) filepath (up_data f) then
    match rsplit_dot filename with
    | None => None
    | Some (_, ext) =>
        Some (extract_text extract_text_from_pdf docx2txt_process
                ((filepath, up_data f) :: saved w) filepath (lower ext))
    end
  else None.

(** The three causes of a rejection. *)
Definition no_file (rq : request) : Prop :=
  match get (files rq) (py "resume") with
  | None => True
  | Some f => up_filename f = []
  end.

Definition bad_extension (rq : request) : Prop :=
  exists f, get (files rq) (py "resume") = Some f /\
            ~ has_allowed_extension (up_filename f).

Definition empty_text (w : world) (rq : request) (ck : clock) : Prop :=
  exists f, get (files rq) (py "resume") = Some f /\
            extracted_text w ck f = Some [].

End Causes.

(** The job description of the scenario, and the seven words it names. *)
Definition scenario_description : str :=
  py "Looking for a Go developer with Docker and AWS experience".
Definition scenario_words : list str :=
  [py "Looking"; py "developer"; py "with"; py "Docker"; py "and"; py "AWS";
   py "experience"].

(** The 256 characters of the model. *)
Definition all_chars : list ascii := map ascii_of_nat (seq 0 256).

(** [b] is empty or starts outside the class [p]. *)
Definition stops (p : ascii -> bool) (b : str) : Prop :=
  match b with
  | [] => True
  | c :: _ => p c = false
  end.

(** The pattern occurs somewhere in [text] with the digits [n]. *)
Definition years_occurrence (text n : str) : Prop :=
  exists pre s rest, text = pre ++ s /\ years_match s n rest.

(** The value of a decimal digit. *)
Definition digit_of (c : ascii) : Z :=
  match c with
  | "0" => 0 | "1" => 1 | "2" => 2 | "3" => 3 | "4" => 4
  | "5" => 5 | "6" => 6 | "7" => 7 | "8" => 8 | "9" => 9
  | _ => 0
  end%char%Z.

(** The number that the decimal digits [n] write, the most significant
    digit first: the sum of the digits times their powers of ten. *)
Fixpoint number_of (n : str) : Z :=
  match n with
  | [] => 0
  | c :: n' => digit_of c * 10 ^ Z.of_nat (List.length n') + number_of n'
  end%Z.

(** [token] passes the test [token and token.isdigit()]. *)
Definition passes (token : str) : bool := truthy token && isdigit token.

(** The tokens of one [findall] tuple that are given to [int]. *)
Definition tuple_tokens (t : str * str * str) : list str :=
  let '(g1, g2, g3) := t in filter passes [g1; g2; g3].

(** The tokens that [find_years_of_experience] gives to [int], in the
    order of the text. *)
Definition tokens_found (text : str) : list str :=
  flat_map tuple_tokens (findall match_years text).

(** [int] accepts [token]: decimal digits, one at least, and no more than
    [int_max_str_digits]. *)
Definition int_accepts (token : str) : bool :=
  truthy token && forallb is_decimal token &&
  negb (PyNum.int_max_str_digits <? List.length token)%nat.

(** The largest of the numbers read from [tokens], 0 when there is none. *)
Definition largest (tokens : list str) : Z :=
  match map digits_value tokens with
  | [] => 0%Z
  | n :: ns => max_of n ns
  end.

(** A text with a number of 4301 digits before the word "years". *)
Definition long_number : str := repeat "1"%char 4301.
Definition long_years : str := long_number ++ py " years".

(** The capital letters of Latin-1 and their small letters, by their code
    points: A-Z and a-z, U+00C0..U+00D6 and U+00E0..U+00F6, U+00D8..U+00DE
    and U+00F8..U+00FE. *)
Definition capitals : list ascii :=
  py "ABCDEFGHIJKLMNOPQRSTUVWXYZ" ++ map ascii_of_nat (seq 192 23 ++ seq 216 7).
Definition smalls : list ascii :=
  py "abcdefghijklmnopqrstuvwxyz" ++ map ascii_of_nat (seq 224 23 ++ seq 248 7).

(** The small letter of a capital, looked up in the table; any other
    character is left as it is. *)
Fixpoint small_of (table : list (ascii * ascii)) (c : ascii) : ascii :=
  match table with
  | [] => c
  | (capital, small) :: table' =>
      if Ascii.eqb c capital then small else small_of table' c
  end.

Definition lowercase (s : str) : str := map (small_of (combine capitals smalls)) s.

(** The labels of [find_education] from the lowest to the highest:
    "Not specified", "Bachelor", "Master", "PhD". *)
Definition edu_rank (label : str) : nat :=
  if str_eqb label (py "PhD") then 3
  else if str_eqb label (py "Master") then 2
  else if str_eqb label (py "Bachelor") then 1
  else 0.

(** The groups of a [findall] tuple, lowercased. *)
Definition lower_groups (g : str * str * str) : str * str * str :=
  let '(a, b, c) := g in (lower a, lower b, lower c).

(** A group and the rest of the text, lowercased. *)
Definition lower_pair (x : str * str) : str * str :=
  (lower (fst x), lower (snd x)).

(** [s] neither starts nor ends with whitespace. *)
Definition trimmed (s : str) : Prop :=
  stops isspace s /\ stops isspace (rev s).

(** [m] is the skill [s] in normal form: [s] without the whitespace
    around it, in lowercase. *)
Definition normal_form (s m : str) : Prop :=
  exists ws1 core ws2,
    s = ws1 ++ core ++ ws2 /\ all isspace ws1 /\ all isspace ws2 /\
    trimmed core /\ m = lowercase core.

(** [selects t required matched]: going through the skills [required] in
    their order, [matched] takes the normal form of each skill that is not
    blank and whose normal form occurs in [t], once per occurrence in
    [required]; a blank skill, and one whose normal form does not occur in
    [t], is left out. *)
Inductive selects (t : str) : list str -> list str -> Prop :=
  | sel_nil : selects t [] []
  | sel_keep s m required matched :
      normal_form s m -> m <> [] -> occurs m t ->
      selects t required matched -> selects t (s :: required) (m :: matched)
  | sel_blank s required matched :
      all isspace s ->
      selects t required matched -> selects t (s :: required) matched
  | sel_absent s m required matched :
      normal_form s m -> ~ occurs m t ->
      selects t required matched -> selects t (s :: required) matched.

(** The ids of the table, in insertion order. *)
Definition ids (d : Db.t) : list Z := map Db.id (Db.rows d).

(** The ids grow with the insertions and none is above the last one given
    out. *)
Definition ids_fresh (d : Db.t) : Prop :=
  StronglySorted Z.lt (ids d) /\
  Forall (fun i => (i <= Db.last_id d)%Z) (ids d).

(** The path under which [submit] saves the upload [f]. *)
Definition stored_path (secure_filename : str -> str) (ck : clock) (f : upload) : str :=
  path_join UPLOAD_FOLDER
    (secure_filename (now_compact ck ++ py "_" ++ up_filename f)).

(** The skills [submit] scores a request with: the ones of the form field,
    or, when there is none, the ones derived from the job description. *)
Definition submitted_skills (rq : request) : list str :=
  match form_skills (strip (get_default (form rq) (py "skills") [])) with
  | [] => derived_skills (strip (get_default (form rq) (py "job_description") []))
  | _ :: _ => form_skills (strip (get_default (form rq) (py "skills") []))
  end.

(** The three messages of [submit]. *)
Definition msg_attach : str := py "Please attach a resume (PDF or DOCX).".
Definition msg_unsupported : str := py "Unsupported file type. Allowed: pdf, docx".
Definition msg_no_text : str :=
  py "Could not extract text from the resume. Make sure the file is valid.".

End Spec.
Import Spec.

(** ** Tactics for the case analysis of [submit] *)

(** The answer is a redirection with a message and the table is as it was:
    what is left to show is that one of the causes holds. *)
Ltac rejected :=
  split;
  [ split; [intros _ | intros _; eexists; reflexivity]
  | split;
    [ intros msg E; injection E as <-; split; [discriminate | reflexivity]
    | intros H; contradiction H; reflexivity ] ].

(** The answer is no redirection: what is left to show is that no cause
    holds ([H]), and the last part of the statement. *)
Ltac not_rejected :=
  split;
  [ split; [intros [msg E]; discriminate | intros H; exfalso]
  | split; [intros msg E; discriminate | intros H] ].


(** ** Facts on strings *)

Section StrFacts.

Lemma startswith_iff (p t : str) :
  startswith p t = true <-> exists suf, t = p ++ suf.
Proof.
  revert t; induction p as [|a p IH]; intros t; simpl.
  - split; [intros _; now exists t | reflexivity].
  - destruct t as [|b t].
    + split; [discriminate | intros [suf H]; discriminate].
    + rewrite andb_true_iff, Ascii.eqb_eq, IH. split.
      * intros [-> [suf ->]]. now exists suf.
      * intros [suf H]. injection H as -> ->. split; [reflexivity | now exists suf].
Qed.

Lemma contains_iff (needle hay : str) :
  contains needle hay = true <-> occurs needle hay.
Proof.
  unfold occurs. induction hay as [|c hay IH].
  - simpl. rewrite orb_false_r, startswith_iff. split.
    + intros [suf H]. now exists [], suf.
    + intros [pre [suf H]]. destruct pre; [now exists suf | discriminate].
  - cbn [contains]. rewrite orb_true_iff, startswith_iff, IH. split.
    + intros [[suf H] | [pre [suf H]]].
      * now exists [], suf.
      * exists (c :: pre), suf. simpl. now rewrite H.
    + intros [pre [suf H]]. destruct pre as [|c' pre].
      * left. now exists suf.
      * right. injection H as _ H. now exists pre, suf.
Qed.

Lemma contains_false_iff (needle hay : str) :
  contains needle hay = false <-> ~ occurs needle hay.
Proof.
  rewrite <- contains_iff. destruct (contains needle hay); split; congruence.
Qed.

Lemma str_eqb_eq (a b : str) : str_eqb a b = true <-> a = b.
Proof.
  unfold str_eqb. destruct (list_eq_dec ascii_dec a b); split; congruence.
Qed.

Lemma some_eq {A} (a b : A) : Some a = Some b -> a = b.
Proof. intros E. now injection E. Qed.

Lemma mem_iff (x : str) (xs : list str) : mem x xs = true <-> In x xs.
Proof.
  unfold mem. rewrite existsb_exists. split.
  - intros [y [Hy E]]. apply str_eqb_eq in E. now subst.
  - intros H. exists x. split; [assumption | now apply str_eqb_eq].
Qed.

End StrFacts.

(** ** Education *)

Section Education.

Lemma phd_test_iff (t : str) :
  contains (py "phd") t || contains (py "ph.d") t || contains (py "doctorate") t = true
  <-> has_marker phd_markers t.
Proof.
  unfold has_marker, phd_markers. rewrite !orb_true_iff, !contains_iff. split.
  - intros [[H | H] | H]; eexists; (split; [|exact H]); simpl; auto.
  - intros [m [Hin H]]. simpl in Hin.
    destruct Hin as [<- | [<- | [<- | []]]]; auto.
Qed.

Lemma master_test_iff (t : str) :
  contains (py "master") t || contains (py "ms ") t || contains (py "m.sc") t
    || contains (py "Post-graduate") t = true
  <-> has_marker master_markers t.
Proof.
  unfold has_marker, master_markers. rewrite !orb_true_iff, !contains_iff. split.
  - intros [[[H | H] | H] | H]; eexists; (split; [|exact H]); simpl; auto.
  - intros [m [Hin H]]. simpl in Hin.
    destruct Hin as [<- | [<- | [<- | [<- | []]]]]; auto.
Qed.

Lemma bachelor_test_iff (t : str) :
  contains (py "bachelor") t || contains (py "b.s") t || contains (py "bs ") t
    || contains (py "under-graduate") t || contains (py "be") t = true
  <-> has_marker bachelor_markers t.
Proof.
  unfold has_marker, bachelor_markers. rewrite !orb_true_iff, !contains_iff. split.
  - intros [[[[H | H] | H] | H] | H]; eexists; (split; [|exact H]); simpl; auto 7.
  - intros [m [Hin H]]. simpl in Hin.
    destruct Hin as [<- | [<- | [<- | [<- | [<- | []]]]]]; auto 7.
Qed.

Lemma test_false_iff (b : bool) (P : Prop) : (b = true <-> P) -> (b = false <-> ~ P).
Proof. destruct b; intros [H1 H2]; split; intros; try congruence; intuition congruence. Qed.

(** C3. [find_education] tries PhD, then Master, then Bachelor on the
    lowercased text: the first category one of whose markers occurs decides
    the answer, a text with both a "phd" and a "bachelor" marker is a "PhD",
    and "Not specified" is the answer when no marker of any category occurs. *)
Theorem find_education_priority (text : str) :
  (has_marker phd_markers (lower text) -> find_education text = py "PhD") /\
  (~ has_marker phd_markers (lower text) ->
   has_marker master_markers (lower text) -> find_education text = py "Master") /\
  (~ has_marker phd_markers (lower text) ->
   ~ has_marker master_markers (lower text) ->
   has_marker bachelor_markers (lower text) -> find_education text = py "Bachelor") /\
  (~ has_marker phd_markers (lower text) ->
   ~ has_marker master_markers (lower text) ->
   ~ has_marker bachelor_markers (lower text) ->
   find_education text = py "Not specified") /\
  (occurs (py "phd") (lower text) -> occurs (py "bachelor") (lower text) ->
   find_education text = py "PhD").
Proof.
  unfold find_education.
  pose proof (phd_test_iff (lower text)) as P.
  pose proof (master_test_iff (lower text)) as M.
  pose proof (bachelor_test_iff (lower text)) as B.
  pose proof (test_false_iff _ _ P) as P'.
  pose proof (test_false_iff _ _ M) as M'.
  pose proof (test_false_iff _ _ B) as B'.
  repeat split.
  - intros H. apply P in H. now rewrite H.
  - intros H1 H2. apply P' in H1. apply M in H2. now rewrite H1, H2.
  - intros H1 H2 H3. apply P' in H1. apply M' in H2. apply B in H3.
    now rewrite H1, H2, H3.
  - intros H1 H2 H3. apply P' in H1. apply M' in H2. apply B' in H3.
    now rewrite H1, H2, H3.
  - intros H _.
    assert (HP : has_marker phd_markers (lower text)).
    { exists (py "phd"). split; [simpl; auto | exact H]. }
    apply P in HP. now rewrite HP.
Qed.

Lemma find_education_priority_witness :
  find_education (py "PhD in physics, Bachelor of Science") = py "PhD".
Proof.
  apply (proj2 (proj2 (proj2 (proj2
    (find_education_priority (py "PhD in physics, Bachelor of Science")))))).
  - apply contains_iff. vm_compute. reflexivity.
  - apply contains_iff. vm_compute. reflexivity.
Defined.

(** C9. When "be" occurs in the lowercased text and no PhD or Master marker
    does, the answer is "Bachelor"; so "Not specified" is only ever returned
    for a text free of every Bachelor marker, the bare "be" included. *)
Theorem find_education_be_is_bachelor (text : str) :
  (occurs (py "be") (lower text) ->
   ~ has_marker phd_markers (lower text) ->
   ~ has_marker master_markers (lower text) ->
   find_education text = py "Bachelor") /\
  (find_education text = py "Not specified" ->
   ~ occurs (py "be") (lower text) /\
   forall m, In m bachelor_markers -> ~ occurs m (lower text)).
Proof.
  unfold find_education.
  pose proof (phd_test_iff (lower text)) as P.
  pose proof (master_test_iff (lower text)) as M.
  pose proof (bachelor_test_iff (lower text)) as B.
  pose proof (test_false_iff _ _ P) as P'.
  pose proof (test_false_iff _ _ M) as M'.
  pose proof (test_false_iff _ _ B) as B'.
  split.
  - intros Hbe H1 H2. apply P' in H1. apply M' in H2.
    assert (HB : has_marker bachelor_markers (lower text)).
    { exists (py "be"). split; [simpl; auto 7 | exact Hbe]. }
    apply B in HB. now rewrite H1, H2, HB.
  - clear P M B P' M' B'.
    match goal with |- context [if ?b then py "PhD" else _] => destruct b end;
      [discriminate|].
    match goal with |- context [if ?b then py "Master" else _] => destruct b end;
      [discriminate|].
    match goal with |- context [if ?b then py "Bachelor" else _] => destruct b eqn:E end;
      [discriminate|].
    intros _. apply (test_false_iff _ _ (bachelor_test_iff (lower text))) in E.
    assert (A : forall m, In m bachelor_markers -> ~ occurs m (lower text)).
    { intros m Hin Hm. apply E. now exists m. }
    split; [apply A; simpl; auto 7 | exact A].
Qed.

Lemma find_education_be_is_bachelor_witness :
  find_education (py "I have been a team member") = py "Bachelor".
Proof.
  apply (proj1 (find_education_be_is_bachelor (py "I have been a team member"))).
  - apply contains_iff. vm_compute. reflexivity.
  - intros H. apply phd_test_iff in H. vm_compute in H. discriminate.
  - intros H. apply master_test_iff in H. vm_compute in H. discriminate.
Defined.

(** The Master marker "Post-graduate" is tested against the lowercased
    text, in which no capital P is left: it never matches. *)
Remark post_graduate_never_matches (text : str) :
  contains (py "Post-graduate") (lower text) = false.
Proof.
  apply contains_false_iff. intros [pre [suf H]].
  assert (Hin : In "P"%char (lower text)).
  { rewrite H. apply in_or_app. right. now left. }
  unfold lower in Hin. apply in_map_iff in Hin. destruct Hin as [c [Hc _]].
  revert Hc. generalize c.
  assert (A : forall c, negb (Ascii.eqb (lower_char c) "P") = true).
  { intros c0. destruct c0 as [[] [] [] [] [] [] [] []]; vm_compute; reflexivity. }
  intros c0 E. specialize (A c0). rewrite E in A. discriminate.
Qed.

End Education.

(** ** Skill matching *)

Section Skills.

Lemma comprehension_map_filter {A B} (f : A -> B) (c : A -> bool) (xs : list A) :
  comprehension f c xs = map f (filter c xs).
Proof.
  induction xs as [|x xs IH]; simpl; [reflexivity|].
  destruct (c x); simpl; now rewrite IH.
Qed.

Lemma comprehension_id_filter {A} (c : A -> bool) (xs : list A) :
  comprehension (fun x => x) c xs = filter c xs.
Proof. rewrite comprehension_map_filter. apply map_id. Qed.

Lemma matched_skills_eq (text : str) (required : list str) (r : result) :
  score_resume text required = Some r ->
  matched_skills r =
  filter (fun s => contains s (lower text))
    (map (fun s => lower (strip s)) (filter (fun s => truthy (strip s)) required)).
Proof.
  unfold score_resume. destruct (find_years_of_experience text); [|discriminate].
  intros E. injection E as <-. cbn [matched_skills].
  now rewrite comprehension_id_filter, comprehension_map_filter.
Qed.

Lemma In_matched_skills (text : str) (required : list str) (r : result) (m : str) :
  score_resume text required = Some r ->
  In m (matched_skills r) <->
  exists s, In s required /\ strip s <> [] /\ m = lower (strip s) /\
            occurs m (lower text).
Proof.
  intros R.
  rewrite (matched_skills_eq _ _ _ R), filter_In, in_map_iff, contains_iff. split.
  - intros [[s [E Hs]] Ho]. apply filter_In in Hs. destruct Hs as [Hs Ht].
    exists s. repeat split; auto. intros Z. now rewrite Z in Ht.
  - intros [s [Hs [Hne [E Ho]]]]. split; [|assumption].
    exists s. split; [now symmetry|]. apply filter_In. split; [assumption|].
    destruct (strip s); [congruence | reflexivity].
Qed.

(** C5, as stated: every matched skill is an element of the list the caller
    asked for.  It fails: the skill "Python" is matched as "python". *)
Lemma matched_skills_not_subset :
  ~ (forall (text : str) (required : list str) (r : result) (m : str),
       score_resume text required = Some r ->
       In m (matched_skills r) -> In m required).
Proof.
  intros H.
  destruct (score_resume (py "Senior Python developer") [py "Python"])
    as [r|] eqn:R; [|vm_compute in R; discriminate R].
  specialize (H _ _ r (py "python") R).
  assert (Hin : In (py "python") (matched_skills r)).
  { vm_compute in R. injection R as <-. left. reflexivity. }
  apply H in Hin. simpl in Hin. destruct Hin as [E | []]. discriminate E.
Qed.

(** C5, amended. Every matched skill is the trimmed, lowercased form of a
    skill of the list the caller asked for, and occurs in the lowercased
    text. *)
Theorem matched_skills_subset_normalised
    (text : str) (required : list str) (r : result) (m : str) :
  score_resume text required = Some r ->
  In m (matched_skills r) ->
  In m (map (fun s => lower (strip s)) required) /\ occurs m (lower text).
Proof.
  intros R H. apply (In_matched_skills _ _ _ _ R) in H.
  destruct H as [s [Hs [_ [E Ho]]]]. split; [|assumption].
  apply in_map_iff. exists s. split; [now symmetry | assumption].
Qed.

Lemma matched_skills_subset_normalised_witness :
  In (py "python") (map (fun s => lower (strip s)) [py " Python "; py "AWS"]) /\
  occurs (py "python") (lower (py "Senior Python developer")).
Proof.
  destruct (score_resume (py "Senior Python developer") [py " Python "; py "AWS"])
    as [r|] eqn:R; [|vm_compute in R; discriminate R].
  apply (matched_skills_subset_normalised
           (py "Senior Python developer") [py " Python "; py "AWS"] r (py "python") R).
  vm_compute in R. injection R as <-. left. reflexivity.
Defined.

End Skills.


(** ** Scanning for years of experience *)

Section Characters.

Lemma all_chars_complete (c : ascii) : In c all_chars.
Proof.
  unfold all_chars. rewrite <- (ascii_nat_embedding c).
  apply in_map, in_seq. pose proof (nat_ascii_bounded c). lia.
Qed.

Lemma forall_chars (P : ascii -> bool) :
  forallb P all_chars = true -> forall c, P c = true.
Proof.
  intros H c. rewrite forallb_forall in H. apply H, all_chars_complete.
Qed.

Lemma space_not_decimal (c : ascii) : isspace c = true -> is_decimal c = false.
Proof.
  revert c.
  assert (H : forall c, implb (isspace c) (negb (is_decimal c)) = true)
    by (apply forall_chars; vm_compute; reflexivity).
  intros c Hc. specialize (H c). rewrite Hc in H. simpl in H.
  now apply negb_true_iff.
Qed.

Lemma eqb_i_decimal (a c : ascii) :
  eqb_i a c = true -> is_decimal a = false -> is_decimal c = false.
Proof.
  revert a c.
  assert (H : forall a c,
             implb (eqb_i a c && negb (is_decimal a)) (negb (is_decimal c)) = true).
  { intros a c.
    pose (P := fun a =>
      forallb (fun c => implb (eqb_i a c && negb (is_decimal a))
                              (negb (is_decimal c))) all_chars).
    assert (HP : P a = true) by (apply forall_chars; vm_compute; reflexivity).
    unfold P in HP. rewrite forallb_forall in HP.
    apply HP, all_chars_complete. }
  intros a c E Ha. specialize (H a c). rewrite E, Ha in H. simpl in H.
  now apply negb_true_iff.
Qed.

End Characters.

Section Spans.

Lemma span_spec (p : ascii -> bool) (s a b : str) :
  span p s = (a, b) -> s = a ++ b /\ all p a /\ stops p b.
Proof.
  revert a b. induction s as [|c s IH]; intros a b H; simpl in H.
  - injection H as <- <-. repeat split. constructor.
  - destruct (p c) eqn:Pc.
    + destruct (span p s) as [a' b'] eqn:E. injection H as <- <-.
      destruct (IH a' b' eq_refl) as [-> [Ha Hb]].
      repeat split; [now constructor | assumption].
    + injection H as <- <-. repeat split; [constructor | exact Pc].
Qed.

Lemma span_unique (p : ascii -> bool) (a b : str) :
  all p a -> stops p b -> span p (a ++ b) = (a, b).
Proof.
  intros Ha Hb. induction Ha as [|c a Hc Ha IH]; simpl.
  - destruct b as [|c b]; [reflexivity|]. simpl in Hb |- *. now rewrite Hb.
  - now rewrite Hc, IH.
Qed.

Lemma literal_i_iff (lit s r : str) :
  literal_i lit s = Some r <-> exists y, s = y ++ r /\ same_i lit y.
Proof.
  unfold same_i. revert s. induction lit as [|a lit IH]; intros s; simpl.
  - split.
    + intros H. injection H as ->. exists []. split; [reflexivity | constructor].
    + intros [y [-> Hy]]. inversion Hy. reflexivity.
  - destruct s as [|c s].
    + split; [discriminate|]. intros [y [E Hy]]. inversion Hy; subst. discriminate.
    + destruct (eqb_i a c) eqn:Eac.
      * rewrite IH. split.
        -- intros [y [-> Hy]]. exists (c :: y). split; [reflexivity | now constructor].
        -- intros [y [E Hy]]. inversion Hy; subst. injection E as -> ->.
           now exists l'.
      * split; [discriminate|]. intros [y [E Hy]]. inversion Hy; subst.
        injection E as -> ->. congruence.
Qed.

Lemma same_i_not_decimal (lit y : str) :
  same_i lit y -> Forall (fun a => is_decimal a = false) lit ->
  Forall (fun c => is_decimal c = false) y.
Proof.
  induction 1 as [|a c lit y E _ IH]; intros Hl; [constructor|].
  inversion Hl; subst. constructor; [now apply (eqb_i_decimal a) | auto].
Qed.

Lemma all_space_not_decimal (ws : str) :
  all isspace ws -> Forall (fun c => is_decimal c = false) ws.
Proof. apply Forall_impl. exact space_not_decimal. Qed.

Lemma years_not_decimal : Forall (fun a => is_decimal a = false) (py "years").
Proof. repeat constructor. Qed.

Lemma dash_year_not_decimal : Forall (fun a => is_decimal a = false) (py "-year").
Proof. repeat constructor. Qed.

Lemma same_i_nonempty (a : ascii) (lit y : str) : same_i (a :: lit) y -> y <> [].
Proof. intros H. inversion H. discriminate. Qed.

(** A match is its digits, then a non-empty stretch without digits, then
    the rest. *)
Lemma years_match_shape (s n rest : str) :
  years_match s n rest ->
  n <> [] /\ all is_decimal n /\
  exists mid, s = n ++ mid ++ rest /\ mid <> [] /\
              Forall (fun c => is_decimal c = false) mid.
Proof.
  intros H. destruct H as [n ws1 ws2 y rest Hn Hd H1 H2 Hy
                          |n ws y rest Hn Hd Hne Hw Hy
                          |n y rest Hn Hd Hy].
  - repeat split; try assumption.
    exists (ws1 ++ py "+" ++ ws2 ++ y). split; [|split].
    + now rewrite <- !app_assoc.
    + intros E. apply app_eq_nil in E. destruct E as [_ E]. discriminate.
    + repeat (apply Forall_app; split).
      * now apply all_space_not_decimal.
      * repeat constructor.
      * now apply all_space_not_decimal.
      * exact (same_i_not_decimal _ _ Hy years_not_decimal).
  - repeat split; try assumption.
    exists (ws ++ y). split; [|split].
    + now rewrite <- !app_assoc.
    + intros E. apply app_eq_nil in E. destruct E as [E _]. contradiction.
    + apply Forall_app; split.
      * now apply all_space_not_decimal.
      * exact (same_i_not_decimal _ _ Hy years_not_decimal).
  - repeat split; try assumption.
    exists y. split; [reflexivity|split].
    + eapply same_i_nonempty, Hy.
    + exact (same_i_not_decimal _ _ Hy dash_year_not_decimal).
Qed.

Lemma stops_decimal_mid (mid rest : str) :
  mid <> [] -> Forall (fun c => is_decimal c = false) mid ->
  stops is_decimal (mid ++ rest).
Proof.
  intros Hne H. destruct mid as [|c mid]; [contradiction|].
  inversion H; subst. assumption.
Qed.

Lemma years_match_span (s n rest : str) :
  years_match s n rest -> fst (span is_decimal s) = n.
Proof.
  intros H. destruct (years_match_shape _ _ _ H) as [_ [Hd [mid [-> [Hne Hm]]]]].
  rewrite span_unique; auto using stops_decimal_mid.
Qed.

Lemma truthy_iff (s : str) : truthy s = true <-> s <> [].
Proof. destruct s; simpl; split; congruence. Qed.

End Spans.

Section YearsPattern.

Lemma plus_only (c : ascii) : eqb_i "+" c = true -> c = "+"%char.
Proof.
  assert (H : forall c, implb (eqb_i "+" c) (Ascii.eqb c "+") = true)
    by (apply forall_chars; vm_compute; reflexivity).
  intros E. specialize (H c). rewrite E in H. now apply Ascii.eqb_eq.
Qed.

Lemma y_not_space (c : ascii) : eqb_i "y" c = true -> isspace c = false.
Proof.
  assert (H : forall c, implb (eqb_i "y" c) (negb (isspace c)) = true)
    by (apply forall_chars; vm_compute; reflexivity).
  intros E. specialize (H c). rewrite E in H. now apply negb_true_iff.
Qed.

Lemma same_i_plus (y : str) : same_i (py "+") y -> y = py "+".
Proof.
  intros H. inversion H as [|a c l l' E Hl]; subst. inversion Hl; subst.
  now rewrite (plus_only _ E).
Qed.

Lemma alt_plus_years_sound (s d r : str) :
  alt_plus_years s = Some (d, r) -> years_match s d r.
Proof.
  unfold alt_plus_years.
  destruct (span is_decimal s) as [ds r1] eqn:E1.
  destruct (truthy ds) eqn:T; [|discriminate].
  destruct (span isspace r1) as [ws1 r2] eqn:E2.
  destruct (literal_i (py "+") r2) as [r3|] eqn:L1; [|discriminate].
  destruct (span isspace r3) as [ws2 r4] eqn:E3.
  destruct (literal_i (py "years") r4) as [r5|] eqn:L2; [|discriminate].
  intros H. injection H as <- <-.
  apply span_spec in E1, E2, E3.
  destruct E1 as [-> [Hd _]], E2 as [-> [H1 _]], E3 as [-> [H2 _]].
  apply literal_i_iff in L1, L2.
  destruct L1 as [p [-> Hp]], L2 as [y [-> Hy]].
  rewrite (same_i_plus _ Hp).
  apply ym_plus; auto. now apply truthy_iff.
Qed.

Lemma alt_space_years_sound (s d r : str) :
  alt_space_years s = Some (d, r) -> years_match s d r.
Proof.
  unfold alt_space_years.
  destruct (span is_decimal s) as [ds r1] eqn:E1.
  destruct (truthy ds) eqn:T; [|discriminate].
  destruct (span isspace r1) as [ws r2] eqn:E2.
  destruct (truthy ws) eqn:W; [|discriminate].
  destruct (literal_i (py "years") r2) as [r3|] eqn:L; [|discriminate].
  intros H. injection H as <- <-.
  apply span_spec in E1, E2.
  destruct E1 as [-> [Hd _]], E2 as [-> [Hw _]].
  apply literal_i_iff in L. destruct L as [y [-> Hy]].
  apply ym_space; auto; now apply truthy_iff.
Qed.

Lemma alt_dash_year_sound (s d r : str) :
  alt_dash_year s = Some (d, r) -> years_match s d r.
Proof.
  unfold alt_dash_year.
  destruct (span is_decimal s) as [ds r1] eqn:E1.
  destruct (truthy ds) eqn:T; [|discriminate].
  destruct (literal_i (py "-year") r1) as [r2|] eqn:L; [|discriminate].
  intros H. injection H as <- <-.
  apply span_spec in E1. destruct E1 as [-> [Hd _]].
  apply literal_i_iff in L. destruct L as [y [-> Hy]].
  apply ym_dash; auto. now apply truthy_iff.
Qed.

Lemma stops_space_years (y rest : str) :
  same_i (py "years") y -> stops isspace (y ++ rest).
Proof.
  intros H. inversion H as [|a c l l' E Hl]; subst. simpl. now apply y_not_space.
Qed.

Lemma literal_i_here (lit y rest : str) :
  same_i lit y -> literal_i lit (y ++ rest) = Some rest.
Proof. intros H. apply literal_i_iff. now exists y. Qed.

Lemma alt_plus_years_complete (n ws1 ws2 y rest : str) :
  n <> [] -> all is_decimal n -> all isspace ws1 -> all isspace ws2 ->
  same_i (py "years") y ->
  alt_plus_years (n ++ ws1 ++ py "+" ++ ws2 ++ y ++ rest) = Some (n, rest).
Proof.
  intros Hn Hd H1 H2 Hy. unfold alt_plus_years.
  rewrite (span_unique is_decimal n); [|assumption|].
  - apply truthy_iff in Hn. rewrite Hn.
    rewrite (span_unique isspace ws1); [|assumption|reflexivity].
    change (literal_i (py "+") (py "+" ++ ws2 ++ y ++ rest))
      with (Some (ws2 ++ y ++ rest)).
    cbv iota beta.
    rewrite (span_unique isspace ws2); [|assumption|now apply stops_space_years].
    now rewrite literal_i_here.
  - destruct H1 as [|c ws1 Hc _]; [reflexivity|]. simpl. now apply space_not_decimal.
Qed.

Lemma alt_space_years_complete (n ws y rest : str) :
  n <> [] -> all is_decimal n -> ws <> [] -> all isspace ws ->
  same_i (py "years") y ->
  alt_space_years (n ++ ws ++ y ++ rest) = Some (n, rest).
Proof.
  intros Hn Hd Hne Hw Hy. unfold alt_space_years.
  rewrite (span_unique is_decimal n); [|assumption|].
  - apply truthy_iff in Hn. rewrite Hn.
    rewrite (span_unique isspace ws); [|assumption|now apply stops_space_years].
    apply truthy_iff in Hne. rewrite Hne.
    now rewrite literal_i_here.
  - destruct Hw as [|c ws Hc _]; [contradiction|]. simpl. now apply space_not_decimal.
Qed.

Lemma alt_dash_year_complete (n y rest : str) :
  n <> [] -> all is_decimal n -> same_i (py "-year") y ->
  alt_dash_year (n ++ y ++ rest) = Some (n, rest).
Proof.
  intros Hn Hd Hy. unfold alt_dash_year.
  rewrite (span_unique is_decimal n); [|assumption|].
  - apply truthy_iff in Hn. rewrite Hn. now rewrite literal_i_here.
  - apply stops_decimal_mid.
    + eapply same_i_nonempty, Hy.
    + exact (same_i_not_decimal _ _ Hy dash_year_not_decimal).
Qed.

Lemma decimal_isdigit (n : str) :
  n <> [] -> all is_decimal n -> truthy n && isdigit n = true.
Proof.
  intros Hn Hd. apply truthy_iff in Hn. rewrite Hn. simpl.
  destruct n as [|c n]; [discriminate|]. unfold isdigit.
  apply forallb_forall. intros x Hx. unfold all in Hd.
  rewrite Forall_forall in Hd. unfold isdigit_char. now rewrite (Hd x Hx).
Qed.

(** A match of the pattern at the head of [s] is found, and what is found
    is a match; its tuple holds the digits once. *)
Lemma match_years_sound (s : str) (g : str * str * str) (r : str) :
  match_years s = Some (g, r) ->
  exists n, years_match s n r /\ tuple_tokens g = [n].
Proof.
  unfold match_years.
  destruct (alt_plus_years s) as [[d1 r1]|] eqn:A1.
  - intros H. injection H as <- <-. apply alt_plus_years_sound in A1.
    exists d1. split; [assumption|].
    destruct (years_match_shape _ _ _ A1) as [Hn [Hd _]].
    unfold tuple_tokens, passes. simpl. now rewrite (decimal_isdigit _ Hn Hd).
  - destruct (alt_space_years s) as [[d2 r2]|] eqn:A2.
    + intros H. injection H as <- <-. apply alt_space_years_sound in A2.
      exists d2. split; [assumption|].
      destruct (years_match_shape _ _ _ A2) as [Hn [Hd _]].
      unfold tuple_tokens, passes. simpl. now rewrite (decimal_isdigit _ Hn Hd).
    + destruct (alt_dash_year s) as [[d3 r3]|] eqn:A3; [|discriminate].
      intros H. injection H as <- <-. apply alt_dash_year_sound in A3.
      exists d3. split; [assumption|].
      destruct (years_match_shape _ _ _ A3) as [Hn [Hd _]].
      unfold tuple_tokens, passes. simpl. now rewrite (decimal_isdigit _ Hn Hd).
Qed.

Lemma y_not_plus (c : ascii) : eqb_i "y" c = true -> eqb_i "+" c = false.
Proof.
  assert (H : forall c, implb (eqb_i "y" c) (negb (eqb_i "+" c)) = true)
    by (apply forall_chars; vm_compute; reflexivity).
  intros E. specialize (H c). rewrite E in H. now apply negb_true_iff.
Qed.

Lemma dash_not_space_nor_plus (c : ascii) :
  eqb_i "-" c = true -> isspace c = false /\ eqb_i "+" c = false.
Proof.
  assert (H : forall c, implb (eqb_i "-" c)
                          (negb (isspace c) && negb (eqb_i "+" c)) = true)
    by (apply forall_chars; vm_compute; reflexivity).
  intros E. specialize (H c). rewrite E in H. simpl in H.
  apply andb_true_iff in H. now rewrite !negb_true_iff in H.
Qed.

(** Where "<N> years" matches, "<N>+ years" does not. *)
Lemma alt_plus_years_not_space (n ws y rest : str) :
  n <> [] -> all is_decimal n -> ws <> [] -> all isspace ws ->
  same_i (py "years") y ->
  alt_plus_years (n ++ ws ++ y ++ rest) = None.
Proof.
  intros Hn Hd Hne Hw Hy. unfold alt_plus_years.
  rewrite (span_unique is_decimal n); [|assumption|].
  - apply truthy_iff in Hn. rewrite Hn.
    rewrite (span_unique isspace ws); [|assumption|now apply stops_space_years].
    inversion Hy as [|a c l y' E Hl]; subst. simpl.
    now rewrite (y_not_plus _ E).
  - destruct Hw as [|c ws Hc _]; [contradiction|]. simpl. now apply space_not_decimal.
Qed.

(** Where "<N>-year" matches, neither "<N>+ years" nor "<N> years" does. *)
Lemma alts_not_dash (n y rest : str) :
  n <> [] -> all is_decimal n -> same_i (py "-year") y ->
  alt_plus_years (n ++ y ++ rest) = None /\
  alt_space_years (n ++ y ++ rest) = None.
Proof.
  intros Hn Hd Hy. unfold alt_plus_years, alt_space_years.
  rewrite (span_unique is_decimal n); [|assumption|].
  - apply truthy_iff in Hn. rewrite Hn.
    inversion Hy as [|a c l y' E Hl]; subst.
    destruct (dash_not_space_nor_plus _ E) as [Hs Hp].
    simpl. rewrite Hs. simpl. rewrite Hp. now split.
  - apply stops_decimal_mid.
    + eapply same_i_nonempty, Hy.
    + exact (same_i_not_decimal _ _ Hy dash_year_not_decimal).
Qed.

Lemma tuple_tokens_one (n : str) :
  n <> [] -> all is_decimal n ->
  tuple_tokens (n, [], []) = [n] /\
  tuple_tokens ([], n, []) = [n] /\
  tuple_tokens ([], [], n) = [n].
Proof.
  intros Hn Hd. unfold tuple_tokens, passes. simpl.
  now rewrite (decimal_isdigit _ Hn Hd).
Qed.

(** Where the pattern matches, the scan finds that match. *)
Lemma match_years_exact (s n rest : str) :
  years_match s n rest ->
  exists g, match_years s = Some (g, rest) /\ tuple_tokens g = [n].
Proof.
  intros H. unfold match_years.
  destruct H as [n ws1 ws2 y rest Hn Hd H1 H2 Hy
                |n ws y rest Hn Hd Hne Hw Hy
                |n y rest Hn Hd Hy];
    destruct (tuple_tokens_one n Hn Hd) as [T1 [T2 T3]].
  - rewrite alt_plus_years_complete by assumption. eauto.
  - rewrite alt_plus_years_not_space, alt_space_years_complete by assumption. eauto.
  - destruct (alts_not_dash n y rest Hn Hd Hy) as [-> ->].
    rewrite alt_dash_year_complete by assumption. eauto.
Qed.

(** The match at a position is unique. *)
Lemma years_match_functional (s n n' rest rest' : str) :
  years_match s n rest -> years_match s n' rest' -> n = n' /\ rest = rest'.
Proof.
  intros H H'. split.
  - rewrite <- (years_match_span _ _ _ H). apply (years_match_span _ _ _ H').
  - destruct (match_years_exact _ _ _ H) as [g [E _]].
    destruct (match_years_exact _ _ _ H') as [g' [E' _]]. congruence.
Qed.

Lemma match_years_complete (s n rest : str) :
  years_match s n rest -> match_years s <> None.
Proof.
  intros H. destruct (match_years_exact _ _ _ H) as [g [E _]]. congruence.
Qed.

End YearsPattern.

Section YearsFound.

Local Open Scope Z_scope.

Lemma int_fold_mono (t : str) (a b : Z) :
  a <= b -> fold_left int_step t a <= fold_left int_step t b.
Proof.
  revert a b. induction t as [|c t IH]; intros a b H; simpl; [assumption|].
  apply IH. unfold int_step. lia.
Qed.

Lemma decimal_value (c : ascii) : is_decimal c = true -> 0 <= Z.of_N (code c) - 48.
Proof.
  unfold is_decimal, in_range. rewrite andb_true_iff, !N.leb_le. lia.
Qed.

Lemma int_fold_nonneg (n : str) (a : Z) :
  all is_decimal n -> 0 <= a -> 0 <= fold_left int_step n a.
Proof.
  intros H. revert a. induction H as [|c n Hc _ IH]; intros a Ha; simpl; [assumption|].
  apply IH. pose proof (decimal_value c Hc). unfold int_step. lia.
Qed.

Lemma digits_value_suffix (pre n : str) :
  all is_decimal pre -> digits_value n <= digits_value (pre ++ n).
Proof.
  intros H. unfold digits_value. rewrite fold_left_app.
  apply int_fold_mono, int_fold_nonneg; [assumption | lia].
Qed.

Lemma digit_of_decimal (c : ascii) :
  is_decimal c = true -> Z.of_N (code c) - 48 = digit_of c.
Proof.
  assert (T : forall a, (if is_decimal a
                         then Z.eqb (Z.of_N (code a) - 48) (digit_of a)
                         else true) = true)
    by (apply forall_chars; vm_compute; reflexivity).
  intros H. specialize (T c). rewrite H in T. now apply Z.eqb_eq.
Qed.

Lemma int_fold_number (n : str) (a : Z) :
  all is_decimal n ->
  fold_left int_step n a = a * 10 ^ Z.of_nat (List.length n) + number_of n.
Proof.
  intros H. revert a. induction H as [|c n Hc _ IH]; intros a.
  - cbn [fold_left List.length number_of]. change (10 ^ Z.of_nat 0) with 1. lia.
  - cbn [fold_left List.length number_of]. rewrite IH.
    unfold int_step. rewrite (digit_of_decimal c Hc).
    rewrite Nat2Z.inj_succ, Z.pow_succ_r by lia. ring.
Qed.

(** On decimal digits, [int] reads the number they write. *)
Lemma digits_value_number (n : str) :
  all is_decimal n -> digits_value n = number_of n.
Proof.
  intros H. unfold digits_value. rewrite (int_fold_number n 0 H). lia.
Qed.

Lemma max_of_ge (ns : list Z) (n x : Z) : In x (n :: ns) -> x <= max_of n ns.
Proof.
  unfold max_of. revert n x. induction ns as [|a ns IH]; intros n x H; simpl.
  - destruct H as [-> | []]. lia.
  - pose proof (IH (Z.max n a) (Z.max n a) (or_introl eq_refl)) as Hmax.
    destruct H as [-> | [-> | H]]; [lia | lia |].
    apply IH. now right.
Qed.

Lemma max_of_in (ns : list Z) (n : Z) : In (max_of n ns) (n :: ns).
Proof.
  unfold max_of. revert n. induction ns as [|a ns IH]; intros n; simpl.
  - now left.
  - destruct (IH (Z.max n a)) as [E | H].
    + rewrite <- E. destruct (Z.max_spec n a) as [[_ ->] | [_ ->]]; auto.
    + auto.
Qed.

(** Two ways to cut the same text: a match [d ++ mid ++ rest] and a later
    position [pre ++ suf] where digits start.  Either the position lies in
    what follows the match, or it lies in the digits of the match. *)
Lemma overlap (d mid rest pre suf : str) (c : ascii) (suf' : str) :
  d ++ mid ++ rest = pre ++ suf ->
  Forall (fun c => is_decimal c = false) mid ->
  suf = c :: suf' -> is_decimal c = true ->
  (exists l, rest = l ++ suf) \/
  (exists d2, d = pre ++ d2 /\ suf = d2 ++ mid ++ rest).
Proof.
  intros E Hm Hs Hc. apply app_eq_app in E.
  destruct E as [l [[E1 E2] | [E1 E2]]].
  - right. exists l. now split.
  - apply app_eq_app in E2.
    destruct E2 as [l2 [[E3 E4] | [E3 E4]]].
    + destruct l2 as [|c2 l2].
      * left. exists []. now rewrite E4.
      * exfalso. rewrite Hs in E4. injection E4 as -> _. subst mid.
        apply Forall_app in Hm. destruct Hm as [_ Hm]. inversion Hm; congruence.
    + left. now exists l2.
Qed.

Lemma years_match_head (s n rest : str) :
  years_match s n rest -> exists c s', s = c :: s' /\ is_decimal c = true.
Proof.
  intros H. destruct (years_match_shape _ _ _ H) as [Hn [Hd [mid [-> _]]]].
  destruct n as [|c n]; [contradiction|]. inversion Hd; subst.
  now exists c, (n ++ mid ++ rest).
Qed.

Lemma years_match_shorter (s n rest : str) :
  years_match s n rest -> (List.length rest < List.length s)%nat.
Proof.
  intros H. destruct (years_match_shape _ _ _ H) as [Hn [_ [mid [-> _]]]].
  rewrite !length_app. destruct n; [contradiction | simpl; lia].
Qed.

(** What [findall] reports was matched somewhere in the text. *)
Lemma scan_years_sound (fuel : nat) (s : str) (g : str * str * str) :
  In g (scan match_years fuel s) ->
  exists n, years_occurrence s n /\ tuple_tokens g = [n].
Proof.
  revert s. induction fuel as [|fuel IH]; intros s H; simpl in H; [contradiction|].
  destruct (match_years s) as [[g0 r0]|] eqn:M.
  - destruct H as [<- | H].
    + destruct (match_years_sound _ _ _ M) as [n [Hm Ht]].
      exists n. split; [|assumption]. now exists [], s, r0.
    + destruct (match_years_sound _ _ _ M) as [n0 [Hm0 _]].
      destruct (years_match_shape _ _ _ Hm0) as [_ [_ [mid [-> _]]]].
      destruct (IH _ H) as [n [[pre [s' [rest [E Hm]]]] Ht]].
      exists n. split; [|assumption].
      exists (n0 ++ mid ++ pre), s', rest. split; [|assumption].
      now rewrite E, <- !app_assoc.
  - destruct s as [|c s]; [contradiction|].
    destruct (IH _ H) as [n [[pre [s' [rest [E Hm]]]] Ht]].
    exists n. split; [|assumption].
    exists (c :: pre), s', rest. split; [|assumption]. now rewrite E.
Qed.

(** Every occurrence of the pattern is matched by [findall], or starts in
    the digits of one that is; either way the digits reported end with the
    digits of the occurrence. *)
Lemma scan_years_covers (fuel : nat) (s pre suf n rest : str) :
  (List.length s < fuel)%nat ->
  s = pre ++ suf -> years_match suf n rest ->
  exists g p, In g (scan match_years fuel s) /\
              tuple_tokens g = [p ++ n] /\ all is_decimal p.
Proof.
  revert s pre. induction fuel as [|fuel IH]; intros s pre Hf E Hm; [lia|].
  simpl. destruct (match_years s) as [[g0 r0]|] eqn:M.
  - destruct (match_years_sound _ _ _ M) as [n0 [Hm0 Ht0]].
    pose proof (years_match_shorter _ _ _ Hm0) as Hlen.
    destruct (years_match_shape _ _ _ Hm0) as [Hn0 [Hd0 [mid [E0 [Hne Hmid]]]]].
    destruct (years_match_head _ _ _ Hm) as [c [suf' [Es Hc]]].
    rewrite E0 in E.
    destruct (overlap _ _ _ _ _ _ _ E Hmid Es Hc) as [[l El] | [d2 [Ed E2]]].
    + destruct (IH r0 l) as [g [p [Hin [Ht Hp]]]]; [lia | assumption | assumption |].
      exists g, p. repeat split; [now right | assumption | assumption].
    + assert (En : n = d2).
      { rewrite <- (years_match_span _ _ _ Hm), E2.
        subst n0. apply Forall_app in Hd0. destruct Hd0 as [_ Hd2].
        rewrite span_unique; auto using stops_decimal_mid. }
      subst n n0. exists g0, pre. repeat split; [now left | assumption |].
      apply Forall_app in Hd0. now destruct Hd0.
  - destruct pre as [|c pre].
    + simpl in E. subst suf. now apply match_years_complete in Hm.
    + subst s. simpl in Hf.
      destruct (IH (pre ++ suf) pre) as [g [p [Hin [Ht Hp]]]];
        [lia | reflexivity | assumption |].
      now exists g, p.
Qed.

(** The tokens given to [int] are the digits of occurrences of the
    pattern, and the digits of every occurrence end such a token. *)
Lemma tokens_found_sound (text n : str) :
  In n (tokens_found text) -> years_occurrence text n.
Proof.
  unfold tokens_found, findall. intros H.
  apply in_flat_map in H. destruct H as [g [Hg Hn]].
  destruct (scan_years_sound _ _ _ Hg) as [n' [Ho Ht]].
  rewrite Ht in Hn. now destruct Hn as [<- | []].
Qed.

Lemma tokens_found_covers (text n : str) :
  years_occurrence text n ->
  exists p, In (p ++ n) (tokens_found text) /\ all is_decimal p.
Proof.
  intros [pre [s [rest [E Hm]]]].
  destruct (scan_years_covers (S (List.length text)) text pre s n rest)
    as [g [p [Hin [Ht Hp]]]]; [lia | assumption | assumption |].
  exists p. split; [|assumption].
  unfold tokens_found, findall. apply in_flat_map.
  exists g. split; [assumption|]. rewrite Ht. now left.
Qed.

Lemma years_occurrence_decimal (text n : str) :
  years_occurrence text n -> all is_decimal n.
Proof.
  intros [pre [s [rest [_ Hm]]]].
  now destruct (years_match_shape _ _ _ Hm) as [_ [Hd _]].
Qed.

Lemma years_occurrence_length (text n : str) :
  years_occurrence text n -> (List.length n <= List.length text)%nat.
Proof.
  intros [pre [s [rest [-> Hm]]]].
  destruct (years_match_shape _ _ _ Hm) as [_ [_ [mid [-> _]]]].
  rewrite !length_app. lia.
Qed.

(** The two loops of [find_years_of_experience] append the numbers of the
    tokens that pass the test, and raise when [int] refuses one. *)
Lemma append_tokens_eq (t : list str) (nums : list Z) :
  append_tokens t nums =
  if forallb int_accepts (filter passes t)
  then Some (nums ++ map digits_value (filter passes t))
  else None.
Proof.
  revert nums. induction t as [|token t IH]; intros nums.
  - cbn [append_tokens filter forallb map]. now rewrite app_nil_r.
  - cbn [append_tokens filter].
    change (truthy token && isdigit token) with (passes token).
    destruct (passes token); [|apply IH].
    cbn [forallb map]. unfold int_of_str, int_accepts at 1.
    destruct (truthy token && forallb is_decimal token);
      cbn [negb andb]; [|reflexivity].
    destruct (PyNum.int_max_str_digits <? List.length token)%nat;
      cbn [negb andb]; [reflexivity|].
    rewrite IH, <- app_assoc. reflexivity.
Qed.

Lemma append_matches_eq (matches : list (str * str * str)) (nums : list Z) :
  append_matches matches nums =
  if forallb int_accepts (flat_map tuple_tokens matches)
  then Some (nums ++ map digits_value (flat_map tuple_tokens matches))
  else None.
Proof.
  revert nums. induction matches as [|[[g1 g2] g3] matches IH]; intros nums.
  - cbn [append_matches flat_map forallb map]. now rewrite app_nil_r.
  - cbn [append_matches flat_map]. rewrite append_tokens_eq.
    change (filter passes [g1; g2; g3]) with (tuple_tokens (g1, g2, g3)).
    rewrite forallb_app, map_app.
    destruct (forallb int_accepts (tuple_tokens (g1, g2, g3)));
      cbn [andb]; [|reflexivity].
    rewrite IH, <- app_assoc. reflexivity.
Qed.

Lemma find_years_eq (text : str) :
  find_years_of_experience text =
  if forallb int_accepts (tokens_found text)
  then Some (largest (tokens_found text))
  else None.
Proof.
  unfold find_years_of_experience, tokens_found, largest.
  rewrite append_matches_eq.
  destruct (forallb int_accepts _); [|reflexivity].
  cbn [app]. now destruct (map digits_value _).
Qed.

(** The tokens found are decimal digits, one at least: [int] accepts
    them unless they are too many. *)
Lemma int_accepts_found (text n : str) :
  years_occurrence text n ->
  int_accepts n = true <-> (List.length n <= PyNum.int_max_str_digits)%nat.
Proof.
  intros Ho. pose proof (years_occurrence_decimal _ _ Ho) as Hd.
  destruct Ho as [pre [s [rest [_ Hm]]]].
  destruct (years_match_shape _ _ _ Hm) as [Hn _].
  unfold int_accepts.
  replace (truthy n) with true by (symmetry; now apply truthy_iff).
  replace (forallb is_decimal n) with true
    by (symmetry; apply forallb_forall; now apply Forall_forall).
  cbn [andb]. rewrite negb_true_iff, Nat.ltb_ge. reflexivity.
Qed.

(** [find_years_of_experience] returns when no occurrence of the pattern
    has more digits than [int] accepts, and only then. *)
Lemma find_years_returns (text : str) :
  (forall n, years_occurrence text n ->
             (List.length n <= PyNum.int_max_str_digits)%nat) ->
  find_years_of_experience text = Some (largest (tokens_found text)).
Proof.
  intros H. rewrite find_years_eq.
  replace (forallb int_accepts (tokens_found text)) with true; [reflexivity|].
  symmetry. apply forallb_forall. intros n Hn. apply tokens_found_sound in Hn.
  apply (int_accepts_found _ _ Hn), H, Hn.
Qed.

Lemma find_years_some (text : str) (y : Z) :
  find_years_of_experience text = Some y ->
  y = largest (tokens_found text) /\
  forall n, years_occurrence text n ->
            (List.length n <= PyNum.int_max_str_digits)%nat.
Proof.
  rewrite find_years_eq.
  destruct (forallb int_accepts (tokens_found text)) eqn:F; [|discriminate].
  intros E. injection E as <-. split; [reflexivity|].
  intros n Ho. destruct (tokens_found_covers _ _ Ho) as [p [Hin _]].
  rewrite forallb_forall in F. pose proof (F _ Hin) as A.
  apply (int_accepts_found text) in A; [|now apply tokens_found_sound].
  rewrite length_app in A. lia.
Qed.

Lemma find_years_none (text : str) :
  find_years_of_experience text = None <->
  exists n, years_occurrence text n /\
            (PyNum.int_max_str_digits < List.length n)%nat.
Proof.
  split.
  - rewrite find_years_eq.
    destruct (forallb int_accepts (tokens_found text)) eqn:F; [discriminate|].
    intros _.
    assert (X : existsb (fun n => negb (int_accepts n)) (tokens_found text) = true).
    { clear - F. induction (tokens_found text) as [|n l IH]; [discriminate|].
      cbn [forallb existsb] in *. destruct (int_accepts n); cbn in *; auto. }
    apply existsb_exists in X. destruct X as [n [Hin Hn]].
    apply tokens_found_sound in Hin.
    exists n. split; [assumption|].
    apply negb_true_iff in Hn. apply Nat.nle_gt. intros Hle.
    apply (int_accepts_found _ _ Hin) in Hle. congruence.
  - intros [n [Ho Hlen]].
    destruct (find_years_of_experience text) as [y|] eqn:E; [|reflexivity].
    apply find_years_some in E. destruct E as [_ H]. specialize (H n Ho). lia.
Qed.

(** The number of the longest run of tokens: at least the number of every
    token, and the number of one of them. *)
Lemma largest_ge (tokens : list str) (n : str) :
  In n tokens -> digits_value n <= largest tokens.
Proof.
  intros H. unfold largest.
  apply (in_map digits_value) in H.
  destruct (map digits_value tokens) as [|x xs]; [contradiction|].
  now apply max_of_ge.
Qed.

Lemma largest_attained (tokens : list str) :
  (tokens = [] /\ largest tokens = 0) \/
  (exists n, In n tokens /\ largest tokens = digits_value n).
Proof.
  unfold largest. destruct tokens as [|t tokens]; [now left|]. right.
  pose proof (max_of_in (map digits_value tokens) (digits_value t)) as H.
  change (digits_value t :: map digits_value tokens)
    with (map digits_value (t :: tokens)) in H.
  apply in_map_iff in H. destruct H as [n [E Hin]].
  exists n. split; [assumption|]. cbn [map]. now symmetry.
Qed.

(** The number [find_years_of_experience] computes from the tokens is the
    largest number of the occurrences of the pattern. *)
Lemma largest_found_max (text : str) :
  (forall n, years_occurrence text n -> number_of n <= largest (tokens_found text)) /\
  ((exists n, years_occurrence text n /\ largest (tokens_found text) = number_of n) \/
   ((forall n, ~ years_occurrence text n) /\ largest (tokens_found text) = 0)).
Proof.
  assert (Cover : forall n, years_occurrence text n ->
            exists t, In t (tokens_found text) /\ number_of n <= digits_value t).
  { intros n Ho. destruct (tokens_found_covers _ _ Ho) as [p [Hin Hp]].
    exists (p ++ n). split; [assumption|].
    rewrite <- (digits_value_number n (years_occurrence_decimal _ _ Ho)).
    now apply digits_value_suffix. }
  split.
  - intros n Ho. destruct (Cover n Ho) as [t [Hin Hle]].
    pose proof (largest_ge _ _ Hin). lia.
  - destruct (largest_attained (tokens_found text)) as [[E Z] | [n [Hin E]]].
    + right. split; [|assumption]. intros n Ho.
      destruct (Cover n Ho) as [t [Hin _]]. rewrite E in Hin. contradiction.
    + left. exists n. pose proof (tokens_found_sound _ _ Hin) as Ho.
      split; [assumption|].
      now rewrite <- (digits_value_number n (years_occurrence_decimal _ _ Ho)).
Qed.

Example find_years_of_experience_values :
  findall match_years (py "5 years of Python, 10+ YEARS, 3-year, 07 yearsx 9years")
    = [([], py "5", []); (py "10", [], []); ([], [], py "3"); ([], py "07", [])] /\
  find_years_of_experience (py "5 years of Python, 10+ YEARS, 3-year") = Some 10 /\
  find_years_of_experience (py "five years of Python") = Some 0.
Proof. vm_compute. repeat split. Qed.




End YearsFound.

(** ** Keywords of the job description *)

Section Keywords.

(** C6, as stated: the skills derived from the description of the scenario
    all belong to the seven words listed, stopwords excluded.  It fails:
    "Go" has two letters, so it is a token, and it is derived. *)
Lemma derived_skills_scenario_not_subset :
  ~ (forall w, In w (derived_skills scenario_description) ->
               In w scenario_words /\ mem (lower w) stop = false).
Proof.
  intros H. destruct (H (py "Go")) as [Hin _].
  - vm_compute. right. left. reflexivity.
  - apply mem_iff in Hin. vm_compute in Hin. discriminate.
Qed.

(** C6, amended. The skills derived from the description of the scenario
    are "Looking", "Go", "developer", "Docker", "AWS", "experience": words
    of the seven listed or "Go", none of them a stopword, in the order of
    the description, and at most 10. *)
Theorem derived_skills_scenario :
  derived_skills scenario_description =
    [py "Looking"; py "Go"; py "developer"; py "Docker"; py "AWS"; py "experience"] /\
  (forall w, In w (derived_skills scenario_description) ->
             In w (py "Go" :: scenario_words) /\ mem (lower w) stop = false) /\
  subseq (derived_skills scenario_description)
         (findall match_word scenario_description) /\
  (List.length (derived_skills scenario_description) <= 10)%nat.
Proof.
  assert (E : derived_skills scenario_description =
    [py "Looking"; py "Go"; py "developer"; py "Docker"; py "AWS"; py "experience"])
    by (vm_compute; reflexivity).
  split; [exact E|]. rewrite E. split; [|split].
  - intros w Hw. simpl in Hw.
    repeat (destruct Hw as [<- | Hw];
            [split; [apply mem_iff|]; vm_compute; reflexivity|]).
    contradiction.
  - replace (findall match_word scenario_description) with
      [py "Looking"; py "for"; py "Go"; py "developer"; py "with"; py "Docker";
       py "and"; py "AWS"; py "experience"] by (vm_compute; reflexivity).
    repeat (first [apply subseq_keep | apply subseq_drop | apply subseq_nil]).
  - simpl. lia.
Qed.

End Keywords.

(** ** The sign of float results *)

Section FloatSign.

Local Open Scope Z_scope.

Lemma shr_1_nonneg (mrs : shr_record) : 0 <= shr_m mrs -> 0 <= shr_m (shr_1 mrs).
Proof.
  destruct mrs as [m r s]. simpl.
  destruct m as [|p|p]; [| destruct p | destruct p]; simpl; lia.
Qed.

Lemma iter_shr_1_nonneg (p : positive) (mrs : shr_record) :
  0 <= shr_m mrs -> 0 <= shr_m (iter_pos shr_1 p mrs).
Proof.
  revert mrs. induction p as [p IH|p IH|]; intros mrs H; simpl.
  - apply IH, IH, shr_1_nonneg, H.
  - apply IH, IH, H.
  - apply shr_1_nonneg, H.
Qed.

Lemma shr_nonneg (mrs : shr_record) (e n : Z) :
  0 <= shr_m mrs -> 0 <= shr_m (fst (shr mrs e n)).
Proof.
  intros H. unfold shr. destruct n; simpl; auto using iter_shr_1_nonneg.
Qed.

Lemma shr_fexp_nonneg (pr em m e : Z) (l : location) :
  0 <= m -> 0 <= shr_m (fst (shr_fexp pr em m e l)).
Proof.
  intros H. unfold shr_fexp. apply shr_nonneg.
  destruct l as [|[]]; simpl; exact H.
Qed.

Lemma round_nearest_even_nonneg (m : Z) (l : location) :
  0 <= m -> 0 <= round_nearest_even m l.
Proof.
  intros H. unfold round_nearest_even.
  destruct l as [|[]]; try destruct (Z.even m); lia.
Qed.

(** Rounding keeps the sign, whatever the precision. *)
Lemma binary_round_aux_sign (pr em : Z) (sx : bool) (mx ex : Z) (lx : location) :
  0 <= mx -> sign_is sx (binary_round_aux pr em sx mx ex lx).
Proof.
  intros H. unfold binary_round_aux.
  pose proof (shr_fexp_nonneg pr em mx ex lx H) as H1.
  destruct (shr_fexp pr em mx ex lx) as [mrs' e']. simpl in H1.
  pose proof (round_nearest_even_nonneg _ (loc_of_shr_record mrs') H1) as H2.
  pose proof (shr_fexp_nonneg pr em _ e' loc_Exact H2) as H3.
  destruct (shr_fexp pr em _ e' loc_Exact) as [mrs'' e'']. simpl in H3.
  destruct (shr_m mrs'') as [|m|m].
  - reflexivity.
  - destruct (e'' <=? em - pr); reflexivity.
  - lia.
Qed.

Lemma binary_round_sign (pr em : Z) (sx : bool) (mx : positive) (ex : Z) :
  sign_is sx (binary_round pr em sx mx ex).
Proof.
  unfold binary_round. destruct (shl_align mx ex _) as [mz ez].
  apply binary_round_aux_sign. lia.
Qed.

End FloatSign.

(** ** The score *)

Section Score.

Import PyNum.
Local Open Scope Z_scope.

(** The quotients of the scenario and the constant 0.1, as binary64 floats:
    0x1.5555555555555p-1, 0x1.0p-1 and 0x1.999999999999ap-4. *)
Example int_truediv_values :
  int_truediv 2 3 = S754_finite false 6004799503160661 (-53) /\
  int_truediv 5 10 = S754_finite false 4503599627370496 (-53) /\
  int_truediv 1 10 = S754_finite false 7205759403792794 (-56).
Proof. vm_compute. repeat split. Qed.

(** [round(0.25, 1)] is 0.2, the tie going to the even tenth, and
    [round(0.35, 1)] is 0.3, the float 0.35 lying below the decimal. *)
Example round1_values :
  round1 (Float (int_truediv 25 100)) = Float (int_truediv 2 10) /\
  round1 (Float (int_truediv 35 100)) = Float (int_truediv 3 10) /\
  round1 (min (Float (float_of_int 110)) (Int 100)) = Int 100.
Proof. vm_compute. repeat split. Qed.

Lemma find_years_nonneg (text : str) (y : Z) :
  find_years_of_experience text = Some y -> 0 <= y.
Proof.
  intros E. apply find_years_some in E. destruct E as [-> _].
  destruct (largest_attained (tokens_found text)) as [[_ ->] | [n [Hin ->]]]; [lia|].
  apply int_fold_nonneg; [|lia].
  eapply years_occurrence_decimal, tokens_found_sound, Hin.
Qed.

(** What [score_resume] returns, when it returns: it does when
    [find_years_of_experience] does. *)
Lemma score_resume_some (text : str) (required_skills : list str) (r : result) :
  score_resume text required_skills = Some r ->
  find_years_of_experience text = Some (years r) /\
  education r = find_education text.
Proof.
  unfold score_resume. destruct (find_years_of_experience text); [|discriminate].
  intros E. injection E as <-. now split.
Qed.

Lemma score_resume_none (text : str) (required_skills : list str) :
  score_resume text required_skills = None <->
  find_years_of_experience text = None.
Proof.
  unfold score_resume. destruct (find_years_of_experience text); split;
    intros E; (discriminate E || reflexivity).
Qed.

Lemma int_truediv_not_negative (a b : Z) :
  0 <= a -> 0 < b -> not_negative (int_truediv a b).
Proof.
  intros Ha Hb. unfold int_truediv, not_negative.
  destruct b as [|pb|pb]; try lia. destruct a as [|pa|pa]; try lia.
  - reflexivity.
  - unfold exact, SFdiv.
    destruct (SFdiv_core_binary prec emax (Z.pos pa) 0 (Z.pos pb) 0)
      as [[mz ez] lz] eqn:E.
    apply binary_round_aux_sign.
    unfold SFdiv_core_binary in E.
    match type of E with
    | (let '(q, r) := Z.div_eucl ?m' _ in _) = _ =>
        assert (Hm : 0 <= m')
          by (destruct (0 - 0 - _);
              [lia | apply Z.shiftl_nonneg; lia | lia]);
        pose proof (Z.div_pos m' (Z.pos pb) Hm ltac:(lia)) as Hq;
        unfold Z.div in Hq;
        destruct (Z.div_eucl m' (Z.pos pb)) as [q r]
    end.
    injection E as <- _ _. exact Hq.
Qed.

Lemma mul_finite_not_negative (x : spec_float) (m : positive) (e : Z) :
  not_negative x -> not_negative (SFmul prec emax x (S754_finite false m e)).
Proof.
  unfold not_negative. destruct x as [s|s| |s mx ex]; simpl; intros H;
    try contradiction; subst; try reflexivity.
  apply binary_round_aux_sign. lia.
Qed.

Lemma add_not_negative (x y : spec_float) :
  not_negative x -> not_negative y -> not_negative (SFadd prec emax x y).
Proof.
  unfold not_negative.
  destruct x as [sx|sx| |sx mx ex], y as [sy|sy| |sy my ey]; simpl;
    intros Hx Hy; try contradiction; subst; try reflexivity.
  unfold cond_Zopp, binary_normalize.
  destruct (shl_align mx ex (Z.min ex ey)) as [m1 e1].
  destruct (shl_align my ey (Z.min ex ey)) as [m2 e2].
  simpl fst. change (Z.pos m1 + Z.pos m2) with (Z.pos (m1 + m2)).
  apply binary_round_sign.
Qed.

Lemma skills_score_not_negative (m n : Z) :
  0 <= m -> 0 < n ->
  not_negative (to_float (mul (truediv (Int m) (Int n)) (Int 70))).
Proof.
  intros Hm Hn.
  assert (H70 : exists p q, float_of_int 70 = S754_finite false p q)
    by (vm_compute; eauto).
  destruct H70 as [p70 [q70 E70]].
  cbn [mul truediv to_float]. rewrite E70.
  apply mul_finite_not_negative, int_truediv_not_negative; lia.
Qed.

(** The sum of the three parts of the score is a float that is not
    negative. *)
Lemma total_not_negative (skills_score : num) (y e : Z) :
  not_negative (to_float skills_score) -> 0 <= y -> In e [10; 7; 4; 0] ->
  exists t,
    add (add skills_score (mul (truediv (Int (Z.min y 10)) (Int 10)) (Int 30)))
        (Int e) = Float t /\ not_negative t.
Proof.
  intros Hss Hy He.
  assert (H30 : exists p q, float_of_int 30 = S754_finite false p q)
    by (vm_compute; eauto).
  destruct H30 as [p30 [q30 E30]].
  assert (Hys : not_negative
                  (SFmul prec emax (int_truediv (Z.min y 10) 10) (float_of_int 30))).
  { rewrite E30. apply mul_finite_not_negative, int_truediv_not_negative; lia. }
  assert (Hes : not_negative (float_of_int e)).
  { simpl in He. destruct He as [<- | [<- | [<- | [<- | []]]]]; vm_compute; reflexivity. }
  exists (SFadd prec emax
            (SFadd prec emax (to_float skills_score)
               (SFmul prec emax (int_truediv (Z.min y 10) 10) (float_of_int 30)))
            (float_of_int e)).
  split.
  - destruct skills_score; reflexivity.
  - repeat apply add_not_negative; assumption.
Qed.

Lemma Q_of_finite_nonneg (m : positive) (e : Z) : (0 <= Q_of_finite false m e)%Q.
Proof.
  unfold Q_of_finite, Qle. destruct e as [|p|p]; cbn [Qnum Qden inject_Z]; lia.
Qed.

(** [min(total, 100)] is the [int] 100, or [total] itself when that is a
    number from 0 to 100. *)
Lemma min_100_cases (f : spec_float) :
  not_negative f ->
  min (Float f) (Int 100) = Int 100 \/
  (min (Float f) (Int 100) = Float f /\
   exists q, float_value f = Fin q /\ (0 <= q)%Q /\ (q <= 100)%Q).
Proof.
  unfold not_negative, min, lt. cbn [value].
  destruct f as [s|s| |s m e]; simpl; intros H; try contradiction; subst.
  - right. split; [reflexivity|]. exists 0%Q. repeat split; discriminate.
  - left. reflexivity.
  - destruct (Qltb (inject_Z 100) (Q_of_finite false m e)) eqn:E.
    + left. reflexivity.
    + right. split; [reflexivity|]. eexists. split; [reflexivity|]. split.
      * apply Q_of_finite_nonneg.
      * unfold Qltb in E. apply negb_false_iff in E. now apply Qle_bool_iff in E.
Qed.

Lemma round_half_even_range (q : Q) :
  (0 <= q)%Q -> (q <= 100)%Q -> 0 <= round_half_even (q * 10) <= 1000.
Proof.
  intros H0 H100. unfold round_half_even.
  set (x := (q * 10)%Q).
  assert (Hx0 : (0 <= x)%Q) by (unfold x; lra).
  assert (Hx1 : (x <= 1000)%Q) by (unfold x; lra).
  pose proof (Qfloor_le x) as Hf.
  pose proof (Qfloor_resp_le _ _ Hx0) as Hlo.
  pose proof (Qfloor_resp_le _ _ Hx1) as Hhi.
  change 0%Q with (inject_Z 0) in Hlo. change 1000%Q with (inject_Z 1000) in Hhi.
  rewrite Qfloor_Z in Hlo, Hhi.
  set (f := Qfloor x) in *. clearbody f.
  destruct (Qcompare_spec (x - inject_Z f) (1 # 2)) as [E|E|E].
  - assert (B : (inject_Z f <= 1999 # 2)%Q) by lra.
    unfold Qle in B. cbn [Qnum Qden inject_Z] in B. destruct (Z.even f); lia.
  - lia.
  - assert (B : (inject_Z f <= 1999 # 2)%Q) by lra.
    unfold Qle in B. cbn [Qnum Qden inject_Z] in B. lia.
Qed.

Lemma in_0_100b_true (x : num) : in_0_100b x = true -> in_0_100 x.
Proof.
  unfold in_0_100b, in_0_100. destruct (value x) as [| |q|]; try discriminate.
  rewrite andb_true_iff, !Qle_bool_iff. intros [H1 H2]. now exists q.
Qed.

(** The float nearest to [k / 10] is a number from 0 to 100 for each of
    the 1001 values of [k] from 0 to 1000. *)
Lemma tenths_in_range (k : Z) :
  0 <= k <= 1000 -> in_0_100 (Float (float_of_tenths false k)).
Proof.
  intros Hk. apply in_0_100b_true.
  assert (T : forallb (fun n => in_0_100b (Float (float_of_tenths false (Z.of_nat n))))
                (seq 0 1001) = true) by (vm_compute; reflexivity).
  rewrite forallb_forall in T. specialize (T (Z.to_nat k)).
  rewrite Z2Nat.id in T by lia. apply T, in_seq. lia.
Qed.

Lemma round1_min_100 (f : spec_float) :
  not_negative f -> in_0_100 (round1 (min (Float f) (Int 100))).
Proof.
  intros H. destruct (min_100_cases f H) as [-> | [-> [q [Ev [H0 H1]]]]].
  - exists (inject_Z 100). repeat split; discriminate.
  - unfold round1. rewrite Ev.
    replace (sign_of f) with false
      by (destruct f; simpl in *; congruence || contradiction).
    apply tenths_in_range, round_half_even_range; assumption.
Qed.

(** C1. Whatever the text and the required skills, the score is a number
    from 0 to 100, both included. *)
Theorem score_in_range (text : str) (required_skills : list str) (r : result) :
  score_resume text required_skills = Some r ->
  exists q : Q,
    value (score r) = Fin q /\ (0 <= q)%Q /\ (q <= 100)%Q.
Proof.
  intros R. change (in_0_100 (score r)).
  unfold score_resume in R.
  destruct (find_years_of_experience text) as [y|] eqn:Y; [|discriminate R].
  apply some_eq in R. subst r. cbn [score].
  match goal with
  | |- in_0_100 (round1 (min (add (add ?ss _) (Int ?e)) _)) =>
      destruct (total_not_negative ss y e) as [t [Et Ht]]
  end.
  - destruct (comprehension (fun s => lower (strip s))
                (fun s => truthy (strip s)) required_skills)
      as [|s0 skills]; [reflexivity|].
    apply skills_score_not_negative; simpl List.length; lia.
  - now apply (find_years_nonneg text).
  - destruct (str_eqb (find_education text) (py "PhD")); [simpl; auto|].
    destruct (str_eqb (find_education text) (py "Master")); [simpl; auto|].
    destruct (str_eqb (find_education text) (py "Bachelor")); simpl; auto.
  - rewrite Et. now apply round1_min_100.
Qed.

(** C2. The scenario of the specification: two of the three skills are
    matched, five years and a PhD are found, and the score is 71.7 (the
    float nearest to it, 5045438957538509 / 2^46), which is
    2/3 * 70 + 5/10 * 30 + 10 rounded to one decimal. *)
Theorem score_resume_scenario :
  exists r : result,
  score_resume (py "5 years of Python and SQL experience, PhD in CS")
               [py "python"; py "sql"; py "aws"] = Some r /\
  matched_skills r = [py "python"; py "sql"] /\
  years r = 5 /\
  education r = py "PhD" /\
  score r = Float (float_of_tenths false 717) /\
  score r = Float (S754_finite false 5045438957538509 (-46)) /\
  score r = round1 (add (add (mul (truediv (Int 2) (Int 3)) (Int 70))
                             (mul (truediv (Int 5) (Int 10)) (Int 30)))
                        (Int 10)).
Proof. eexists. vm_compute. repeat split. Qed.

Lemma score_in_range_witness :
  let text := py "5 years of Python and SQL experience, PhD in CS" in
  let required_skills := [py "python"; py "sql"; py "aws"] in
  exists r : result,
    score_resume text required_skills = Some r /\
    exists q : Q, value (score r) = Fin q /\ (0 <= q)%Q /\ (q <= 100)%Q.
Proof.
  intros text required_skills. eexists.
  split; [vm_compute; reflexivity|].
  apply (score_in_range text required_skills). vm_compute. reflexivity.
Defined.

End Score.

(** ** The record store *)

Section Store.

Lemma str_leb_total (a b : str) : str_leb a b = true \/ str_leb b a = true.
Proof.
  revert b. induction a as [|x a IH]; intros b; [now left|].
  destruct b as [|y b]; [now right|]. simpl.
  destruct (N.ltb_spec (code x) (code y)), (N.ltb_spec (code y) (code x));
    auto; lia.
Qed.

Lemma str_leb_trans (a b c : str) :
  str_leb a b = true -> str_leb b c = true -> str_leb a c = true.
Proof.
  revert b c. induction a as [|x a IH]; intros b c; [reflexivity|].
  destruct b as [|y b]; [discriminate|]. destruct c as [|z c]; [simpl; congruence|].
  simpl.
  destruct (N.ltb_spec (code x) (code y)), (N.ltb_spec (code y) (code x)),
           (N.ltb_spec (code y) (code z)), (N.ltb_spec (code z) (code y)),
           (N.ltb_spec (code x) (code z)), (N.ltb_spec (code z) (code x));
    try lia; try congruence; try reflexivity.
  apply IH.
Qed.

Lemma place_perm (r : Db.row) (l : list Db.row) : Permutation (Db.place r l) (r :: l).
Proof.
  induction l as [|x l IH]; simpl; [reflexivity|].
  destruct (str_leb _ _); [|reflexivity].
  rewrite IH. apply perm_swap.
Qed.

Lemma place_sorted (r : Db.row) (l : list Db.row) :
  StronglySorted later_or_same l -> StronglySorted later_or_same (Db.place r l).
Proof.
  induction l as [|x l IH]; intros H; simpl.
  - repeat constructor.
  - inversion H as [|? ? Hl Hx]; subst.
    destruct (str_leb (Db.created_at r) (Db.created_at x)) eqn:E.
    + constructor; [auto|].
      apply (Permutation_Forall (Permutation_sym (place_perm r l))).
      constructor; assumption.
    + assert (Hxr : later_or_same r x).
      { unfold later_or_same.
        destruct (str_leb_total (Db.created_at r) (Db.created_at x)); congruence. }
      constructor; [assumption|]. constructor; [assumption|].
      revert Hx. apply Forall_impl. intros y Hy. unfold later_or_same in *.
      eapply str_leb_trans; eassumption.
Qed.

Lemma select_all_desc_perm (d : Db.t) : Permutation (Db.select_all_desc d) (Db.rows d).
Proof.
  unfold Db.select_all_desc. induction (Db.rows d) as [|r l IH]; simpl; [reflexivity|].
  rewrite place_perm. now constructor.
Qed.

Lemma select_all_desc_sorted (d : Db.t) :
  StronglySorted later_or_same (Db.select_all_desc d).
Proof.
  unfold Db.select_all_desc. induction (Db.rows d) as [|r l IH]; simpl.
  - constructor.
  - now apply place_sorted.
Qed.

Lemma insert_appends (d d' : Db.t) (v : Db.values) :
  Db.insert d v = Some d' ->
  exists r, Db.rows d' = Db.rows d ++ [r] /\ Db.supplied r v /\
            Db.id r = (Db.last_id d + 1)%Z.
Proof.
  unfold Db.insert. destruct (Db.fits_int64 (Db.v_years_experience v)); [|discriminate].
  intros H. injection H as <-. eexists. split; [reflexivity|]. split; [|reflexivity].
  unfold Db.supplied. cbn. repeat split.
Qed.

(** C8. After an INSERT the listing of [/admin] holds a row with the values
    that were supplied, under a new id; the listing holds every row of the
    table, the rows present before included, and goes by [created_at] from
    the latest to the earliest. *)
Theorem inserted_record_is_listed (w : world) (v : Db.values) (d' : Db.t) :
  Db.insert (db w) v = Some d' ->
  exists rows,
    admin {| db := d'; saved := saved w |} =
      (Admin rows, {| db := d'; saved := saved w |}) /\
    (exists r, In r rows /\ Db.supplied r v /\ Db.id r = (Db.last_id (db w) + 1)%Z /\
               Permutation rows (r :: Db.rows (db w))) /\
    Permutation rows (Db.rows d') /\
    StronglySorted later_or_same rows.
Proof.
  intros H. destruct (insert_appends _ _ _ H) as [r [Er [Hs Hid]]].
  exists (Db.select_all_desc d'). split; [reflexivity|].
  split; [|split; [apply select_all_desc_perm | apply select_all_desc_sorted]].
  exists r. split; [|split; [assumption | split; [assumption|]]].
  - eapply Permutation_in; [symmetry; apply select_all_desc_perm|].
    rewrite Er. apply in_or_app. right. left. reflexivity.
  - rewrite select_all_desc_perm, Er. apply Permutation_app_comm.
Qed.

Lemma inserted_record_is_listed_witness :
  let w := {| db := Db.empty; saved := [] |} in
  let v := {| Db.v_name := py "Ada";
              Db.v_email := py "ada@example.org";
              Db.v_filename := py "20240101000000_cv.pdf";
              Db.v_score := PyNum.Int 100;
              Db.v_matches := py "python,sql";
              Db.v_years_experience := 12;
              Db.v_education := py "PhD";
              Db.v_job_description := py "";
              Db.v_created_at := py "2024-01-01T00:00:00" |} in
  exists d',
    Db.insert (db w) v = Some d' /\
    exists rows,
      admin {| db := d'; saved := saved w |} =
        (Admin rows, {| db := d'; saved := saved w |}) /\
      (exists r, In r rows /\ Db.supplied r v /\
                 Db.id r = (Db.last_id (db w) + 1)%Z /\
                 Permutation rows (r :: Db.rows (db w))) /\
      Permutation rows (Db.rows d') /\
      StronglySorted later_or_same rows.
Proof.
  intros w v. eexists. split; [reflexivity|].
  apply (inserted_record_is_listed w v). reflexivity.
Defined.

End Store.

(** ** Submissions *)

Section FileNames.

Lemma rsplit_dot_none (s : str) : rsplit_dot s = None <-> ~ In "."%char s.
Proof.
  induction s as [|c s IH]; simpl; [tauto|].
  destruct (rsplit_dot s) as [[stem ext]|].
  - split; [discriminate|]. intros H. exfalso.
    assert (N : ~ In "."%char s) by tauto.
    apply IH in N. discriminate.
  - destruct (Ascii.eqb_spec c ".") as [->|Hc].
    + split; [discriminate | tauto].
    + split; [|reflexivity]. intros _ [E|H]; [congruence|].
      now apply (proj1 IH).
Qed.

Lemma rsplit_dot_some (s stem ext : str) :
  rsplit_dot s = Some (stem, ext) <->
  s = stem ++ py "." ++ ext /\ ~ In "."%char ext.
Proof.
  revert stem. induction s as [|c s IH]; intros stem; simpl.
  - split; [discriminate|]. intros [E _]. destruct stem; discriminate.
  - destruct (rsplit_dot s) as [[stem' ext']|] eqn:R.
    + split.
      * intros H. injection H as <- <-.
        destruct (proj1 (IH stem') eq_refl) as [-> Hn]. now split.
      * intros [E Hn]. destruct stem as [|c' stem].
        -- simpl in E. injection E as -> ->.
           apply rsplit_dot_none in Hn. congruence.
        -- simpl in E. injection E as -> E.
           assert (H : Some (stem', ext') = Some (stem, ext))
             by (apply IH; now split).
           now injection H as -> ->.
    + apply rsplit_dot_none in R. split.
      * destruct (Ascii.eqb_spec c ".") as [->|Hc]; [|discriminate].
        intros H. injection H as <- <-. now split.
      * intros [E Hn]. destruct stem as [|c' stem].
        -- simpl in E. injection E as -> ->. now rewrite Ascii.eqb_refl.
        -- simpl in E. injection E as -> ->. exfalso. apply R.
           apply in_or_app. right. now left.
Qed.

Lemma allowed_file_iff (filename : str) :
  allowed_file filename = true <-> has_allowed_extension filename.
Proof.
  unfold allowed_file, has_allowed_extension. split.
  - rewrite andb_true_iff. intros [_ H].
    destruct (rsplit_dot filename) as [[stem ext]|] eqn:R; [|discriminate].
    apply rsplit_dot_some in R. destruct R as [E Hn].
    exists stem, ext. repeat split; [assumption | assumption |].
    apply mem_iff in H. unfold ALLOWED_EXTENSIONS in H.
    destruct H as [H | [H | []]]; [left | right]; now symmetry.
  - intros [stem [ext [E [Hn Hx]]]].
    assert (R : rsplit_dot filename = Some (stem, ext))
      by (apply rsplit_dot_some; now split).
    rewrite R. apply andb_true_iff. split.
    + apply contains_iff. exists stem, ext. exact E.
    + apply mem_iff. unfold ALLOWED_EXTENSIONS.
      destruct Hx as [-> | ->]; [left | right; left]; reflexivity.
Qed.

End FileNames.

Section Rejections.

Variable secure_filename : str -> str.
Variable save_ok : list (str * str) -> str -> str -> bool.
Variable extract_text_from_pdf : list (str * str) -> str -> option str.
Variable docx2txt_process : list (str * str) -> str -> option str.

(** C7. [submit] answers with a flash message, and inserts nothing, exactly
    when no file is attached, or the extension of the file is not pdf or
    docx, or the text extracted from it is empty; a rejection leaves the
    table as it was, and a row is only inserted for a request whose file
    gave a text, answered with the result page. *)
Theorem submit_rejects_exactly (w : world) (rq : request) (ck : clock) :
  let (resp, w') :=
    submit secure_filename save_ok extract_text_from_pdf docx2txt_process w rq ck in
  ((exists msg, resp = Redirect msg) <->
   (no_file rq \/ bad_extension rq \/
    empty_text secure_filename save_ok extract_text_from_pdf docx2txt_process w rq ck)) /\
  (forall msg, resp = Redirect msg -> msg <> [] /\ db w' = db w) /\
  (db w' <> db w ->
   exists p f text,
     resp = Page p /\ get (files rq) (py "resume") = Some f /\
     extracted_text secure_filename save_ok extract_text_from_pdf docx2txt_process w ck f
       = Some text /\
     text <> []).
Proof.
  unfold submit, no_file, bad_extension, empty_text, extracted_text.
  destruct (get (files rq) (py "resume")) as [f|] eqn:G.
  2:{ rejected. now left. }
  destruct (truthy (up_filename f)) eqn:T; cbn [negb].
  2:{ rejected. left. destruct (up_filename f); [reflexivity | discriminate]. }
  assert (Hname : up_filename f <> []) by now apply truthy_iff.
  destruct (allowed_file (up_filename f)) eqn:A; cbn [negb].
  2:{ rejected. right. left. exists f. split; [reflexivity|].
      intros H. apply allowed_file_iff in H. congruence. }
  apply allowed_file_iff in A.
  assert (NoCause12 : forall P : Prop,
            up_filename f = [] \/
            (exists f0, Some f = Some f0 /\ ~ has_allowed_extension (up_filename f0)) \/ P
            -> P).
  { intros P [H | [[f0 [E H]] | H]]; [contradiction | | assumption].
    injection E as <-. contradiction. }
  destruct (save_ok _ _ _) eqn:S; cbn [negb].
  2:{ not_rejected.
      - apply NoCause12 in H. destruct H as [f0 [E H]].
        injection E as <-. rewrite S in H. discriminate.
      - contradiction H. reflexivity. }
  destruct (rsplit_dot (secure_filename _)) as [[stem ext0]|] eqn:R.
  2:{ not_rejected.
      - apply NoCause12 in H. destruct H as [f0 [E H]].
        injection E as <-. rewrite S, R in H. discriminate.
      - contradiction H. reflexivity. }
  match goal with
  | |- context [truthy ?t] => destruct t as [|c text] eqn:X
  end; cbn [truthy negb].
  - rejected. right. right. exists f. split; [reflexivity|].
    rewrite S, R. cbn [saved] in X. now rewrite X.
  - destruct (score_resume _ _) as [result|].
    2:{ not_rejected.
        - apply NoCause12 in H. destruct H as [f0 [E H]].
          injection E as <-. rewrite S, R in H. cbn [saved] in X. congruence.
        - contradiction H. reflexivity. }
    destruct (Db.insert _ _) as [db'|] eqn:I.
    + not_rejected.
      * apply NoCause12 in H. destruct H as [f0 [E H]].
        injection E as <-. rewrite S, R in H. cbn [saved] in X. congruence.
      * eexists. exists f, (c :: text).
        split; [reflexivity|]. split; [reflexivity|]. split; [|discriminate].
        rewrite S, R. cbn [saved] in X. now rewrite X.
    + not_rejected.
      * apply NoCause12 in H. destruct H as [f0 [E H]].
        injection E as <-. rewrite S, R in H. cbn [saved] in X. congruence.
      * contradiction H. reflexivity.
Qed.

End Rejections.

Lemma submit_rejects_exactly_witness :
  exists msg w',
    submit (fun s => s) (fun _ _ _ => true) (fun _ _ => Some (py "5 years of Python"))
           (fun _ _ => None)
           {| db := Db.empty; saved := [] |}
           {| form := [(py "name", py "Ada")];
              files := [(py "resume",
                         {| up_filename := py "cv.txt"; up_data := py "plain" |})] |}
           {| now_compact := py "20240101000000";
              now_iso := py "2024-01-01T00:00:00";
              now_page := py "2024-01-01 00:00 UTC" |}
    = (Redirect msg, w') /\ msg <> [] /\ db w' = Db.empty.
Proof.
  pose proof (submit_rejects_exactly (fun s => s) (fun _ _ _ => true)
                (fun _ _ => Some (py "5 years of Python")) (fun _ _ => None)
                {| db := Db.empty; saved := [] |}
                {| form := [(py "name", py "Ada")];
                   files := [(py "resume",
                              {| up_filename := py "cv.txt"; up_data := py "plain" |})] |}
                {| now_compact := py "20240101000000";
                   now_iso := py "2024-01-01T00:00:00";
                   now_page := py "2024-01-01 00:00 UTC" |}) as H.
  destruct (submit _ _ _ _ _ _) as [resp w'].
  destruct H as [[_ H1] [H2 _]].
  destruct H1 as [msg ->].
  - right. left. eexists. split; [reflexivity|].
    intros A. apply allowed_file_iff in A. vm_compute in A. discriminate.
  - exists msg, w'. split; [reflexivity|]. now apply H2.
Defined.

Section RoundTrip.

Variable secure_filename : str -> str.
Variable save_ok : list (str * str) -> str -> str -> bool.
Variable extract_text_from_pdf : list (str * str) -> str -> option str.
Variable docx2txt_process : list (str * str) -> str -> option str.

(** X18. The row of a submission that was answered with the result page
    is in the listing of [/admin], with the values the page shows. *)
Corollary submitted_record_is_listed
    (w w' : world) (rq : request) (ck : clock) (p : result_page) :
  submit secure_filename save_ok extract_text_from_pdf docx2txt_process w rq ck = (Page p, w') ->
  exists rows r,
    admin w' = (Admin rows, w') /\ In r rows /\
    Db.name r = p_name p /\ Db.email r = p_email p /\
    Db.filename r = p_filename p /\
    Db.score r = PyNum.to_float (p_score p) /\
    Db.matches r = join (py ",") (p_matched_skills p) /\
    Db.years_experience r = p_years p /\
    Db.education r = p_education p /\
    Db.created_at r = now_iso ck.
Proof.
  unfold submit.
  destruct (get (files rq) (py "resume")) as [f|]; [|discriminate].
  destruct (negb (truthy (up_filename f))); [discriminate|].
  destruct (negb (allowed_file (up_filename f))); [discriminate|].
  destruct (negb (save_ok _ _ _)); [discriminate|].
  destruct (rsplit_dot _) as [[stem ext0]|]; [|discriminate].
  destruct (negb (truthy _)); [discriminate|].
  destruct (score_resume _ _) as [result|]; [|discriminate].
  destruct (Db.insert _ _) as [db'|] eqn:I; [|discriminate].
  intros H. injection H as <- <-.
  destruct (insert_appends _ _ _ I) as [r [Er [Hs _]]].
  exists (Db.select_all_desc db'), r. split; [reflexivity|]. split.
  - eapply Permutation_in; [symmetry; apply select_all_desc_perm|].
    rewrite Er. apply in_or_app. right. left. reflexivity.
  - unfold Db.supplied in Hs. cbn in Hs. cbn [p_name p_email p_filename p_score
      p_matched_skills p_years p_education]. tauto.
Qed.

End RoundTrip.

(** * Further properties of the program *)

(** ** Case and whitespace *)

Section CaseAndSpace.

Lemma lower_char_idem (c : ascii) : lower_char (lower_char c) = lower_char c.
Proof.
  apply Ascii.eqb_eq. revert c. apply forall_chars. vm_compute. reflexivity.
Qed.

Lemma isspace_lower_char (c : ascii) : isspace (lower_char c) = isspace c.
Proof.
  apply eqb_prop. revert c. apply forall_chars. vm_compute. reflexivity.
Qed.

Lemma is_decimal_lower_char (c : ascii) : is_decimal (lower_char c) = is_decimal c.
Proof.
  apply eqb_prop. revert c. apply forall_chars. vm_compute. reflexivity.
Qed.

Lemma isdigit_char_lower (c : ascii) : isdigit_char (lower_char c) = isdigit_char c.
Proof.
  apply eqb_prop. revert c. apply forall_chars. vm_compute. reflexivity.
Qed.

Lemma isdigit_char_fixed (c : ascii) : isdigit_char c = true -> lower_char c = c.
Proof.
  assert (H : forall c, implb (isdigit_char c) (Ascii.eqb (lower_char c) c) = true)
    by (apply forall_chars; vm_compute; reflexivity).
  intros E. specialize (H c). rewrite E in H. now apply Ascii.eqb_eq.
Qed.

Lemma comma_lower_char (c : ascii) : lower_char c = ","%char -> c = ","%char.
Proof.
  assert (H : forall c, implb (Ascii.eqb (lower_char c) ",") (Ascii.eqb c ",") = true)
    by (apply forall_chars; vm_compute; reflexivity).
  intros E. specialize (H c). rewrite E in H. now apply Ascii.eqb_eq.
Qed.

Lemma lower_idem (s : str) : lower (lower s) = lower s.
Proof.
  unfold lower. rewrite map_map. apply map_ext. exact lower_char_idem.
Qed.

Lemma lower_app (a b : str) : lower (a ++ b) = lower a ++ lower b.
Proof. apply map_app. Qed.

Lemma lower_length (s : str) : List.length (lower s) = List.length s.
Proof. apply length_map. Qed.

Lemma lstrip_lower (s : str) : lstrip (lower s) = lower (lstrip s).
Proof.
  induction s as [|c s IH]; [reflexivity|]. simpl.
  rewrite isspace_lower_char. destruct (isspace c); [exact IH | reflexivity].
Qed.

Lemma strip_lower (s : str) : strip (lower s) = lower (strip s).
Proof.
  unfold strip, rstrip, lower. rewrite lstrip_lower. unfold lower.
  rewrite <- map_rev. fold (lower (rev (lstrip s))). rewrite lstrip_lower.
  unfold lower. now rewrite map_rev.
Qed.

(** [lstrip] drops a stretch of whitespace and stops before a character
    that is none. *)
Lemma lstrip_spec (s : str) :
  exists ws, s = ws ++ lstrip s /\ all isspace ws /\ stops isspace (lstrip s).
Proof.
  induction s as [|c s [ws [E [Hw Hs]]]]; simpl.
  - exists []. repeat split. constructor.
  - destruct (isspace c) eqn:Hc.
    + exists (c :: ws). repeat split; [simpl; now rewrite <- E | now constructor | assumption].
    + exists []. repeat split; [constructor | exact Hc].
Qed.

Lemma lstrip_fixed (s : str) : stops isspace s -> lstrip s = s.
Proof. destruct s as [|c s]; simpl; [reflexivity|]. now intros ->. Qed.

Lemma stops_prefix (p : ascii -> bool) (a b : str) :
  a <> [] -> stops p (a ++ b) -> stops p a.
Proof. destruct a; [contradiction | simpl; auto]. Qed.

(** What [strip] returns neither starts nor ends with whitespace. *)
Lemma strip_trimmed (s : str) : trimmed (strip s).
Proof.
  unfold trimmed, strip, rstrip.
  destruct (lstrip_spec s) as [_ [_ [_ Hhead]]].
  destruct (lstrip_spec (rev (lstrip s))) as [ws [E [_ Hlast]]].
  set (u := lstrip s) in *. set (v := lstrip (rev u)) in *.
  rewrite rev_involutive. split; [|exact Hlast].
  assert (Eu : u = rev v ++ rev ws).
  { rewrite <- rev_app_distr, <- E. now rewrite rev_involutive. }
  destruct (rev v) as [|c t] eqn:Ev; [exact I|].
  rewrite Eu in Hhead. exact Hhead.
Qed.

Lemma trimmed_strip (s : str) : trimmed s -> strip s = s.
Proof.
  intros [Hh Hl]. unfold strip, rstrip.
  rewrite (lstrip_fixed s Hh), (lstrip_fixed (rev s) Hl). apply rev_involutive.
Qed.

Lemma strip_idem (s : str) : strip (strip s) = strip s.
Proof. apply trimmed_strip, strip_trimmed. Qed.

(** [strip] only takes characters away. *)
Lemma lstrip_incl (s : str) (c : ascii) : In c (lstrip s) -> In c s.
Proof.
  destruct (lstrip_spec s) as [ws [E _]]. intros H. rewrite E.
  apply in_or_app. now right.
Qed.

Lemma strip_incl (s : str) (c : ascii) : In c (strip s) -> In c s.
Proof.
  unfold strip, rstrip. intros H. apply in_rev in H.
  apply lstrip_incl in H. apply in_rev in H. now apply lstrip_incl.
Qed.

End CaseAndSpace.

(** ** The matched skills *)

Section MatchedOrder.

Lemma subseq_filter {A} (c : A -> bool) (l : list A) : subseq (filter c l) l.
Proof.
  induction l as [|x l IH]; simpl; [constructor|].
  destruct (c x); now constructor.
Qed.

Lemma subseq_map {A B} (f : A -> B) (l1 l2 : list A) :
  subseq l1 l2 -> subseq (map f l1) (map f l2).
Proof. induction 1; simpl; now constructor. Qed.

Lemma subseq_trans {A} (l1 l2 l3 : list A) :
  subseq l1 l2 -> subseq l2 l3 -> subseq l1 l3.
Proof.
  intros H12 H23. revert l1 H12.
  induction H23 as [|x l2 l3 H IH|x l2 l3 H IH]; intros l1 H12.
  - assumption.
  - inversion H12; subst; constructor; auto.
  - constructor; auto.
Qed.

Lemma truthy_lower (s : str) : truthy (lower s) = truthy s.
Proof. now destruct s. Qed.

Lemma count_occ_filter (c : str -> bool) (l : list str) (x : str) :
  c x = true ->
  count_occ (list_eq_dec ascii_dec) (filter c l) x =
  count_occ (list_eq_dec ascii_dec) l x.
Proof.
  intros Hx. induction l as [|a l IH]; [reflexivity|]. cbn [filter count_occ].
  destruct (list_eq_dec ascii_dec a x) as [->|N].
  - rewrite Hx. cbn [count_occ].
    destruct (list_eq_dec ascii_dec x x); [now rewrite IH | congruence].
  - destruct (c a); [|exact IH]. cbn [count_occ].
    destruct (list_eq_dec ascii_dec a x); [congruence | exact IH].
Qed.

(** The table of the small letters is what [lower] computes. *)
Lemma small_of_lower_char (c : ascii) :
  small_of (combine capitals smalls) c = lower_char c.
Proof.
  apply Ascii.eqb_eq. revert c. apply forall_chars. vm_compute. reflexivity.
Qed.

Lemma lowercase_lower (s : str) : lowercase s = lower s.
Proof. apply map_ext. exact small_of_lower_char. Qed.

(** [strip] takes a stretch of whitespace from each end, and what it takes
    them from is determined by the string. *)
Lemma strip_spec (s : str) :
  exists ws1 ws2, s = ws1 ++ strip s ++ ws2 /\ all isspace ws1 /\ all isspace ws2.
Proof.
  unfold strip, rstrip.
  destruct (lstrip_spec s) as [ws1 [E1 [H1 _]]].
  destruct (lstrip_spec (rev (lstrip s))) as [ws [E2 [H2 _]]].
  exists ws1, (rev ws). split; [|split; [assumption | now apply Forall_rev]].
  rewrite <- rev_app_distr, <- E2, rev_involutive. exact E1.
Qed.

Lemma lstrip_space (ws s : str) : all isspace ws -> lstrip (ws ++ s) = lstrip s.
Proof.
  induction 1 as [|c ws Hc _ IH]; [reflexivity|]. simpl. now rewrite Hc.
Qed.

Lemma strip_unique (ws1 core ws2 : str) :
  all isspace ws1 -> all isspace ws2 -> trimmed core ->
  strip (ws1 ++ core ++ ws2) = core.
Proof.
  intros H1 H2 [Hh Hl]. unfold strip, rstrip. rewrite (lstrip_space _ _ H1).
  destruct core as [|c core].
  - cbn [app]. rewrite <- (app_nil_r ws2), (lstrip_space _ _ H2). reflexivity.
  - cbn [stops] in Hh. cbn [app lstrip]. rewrite Hh.
    change (c :: core ++ ws2) with ((c :: core) ++ ws2).
    rewrite rev_app_distr, (lstrip_space _ _ (Forall_rev H2)).
    rewrite (lstrip_fixed _ Hl). apply rev_involutive.
Qed.

(** The normal form of a skill is what [lower] and [strip] compute. *)
Lemma normal_form_iff (s m : str) : normal_form s m <-> m = lower (strip s).
Proof.
  unfold normal_form. split.
  - intros [ws1 [core [ws2 [-> [H1 [H2 [Ht ->]]]]]]].
    now rewrite (strip_unique _ _ _ H1 H2 Ht), lowercase_lower.
  - intros ->. destruct (strip_spec s) as [ws1 [ws2 [E [H1 H2]]]].
    exists ws1, (strip s), ws2. repeat split; try assumption.
    + apply strip_trimmed.
    + apply strip_trimmed.
    + symmetry. apply lowercase_lower.
Qed.

Lemma strip_nil_iff (s : str) : strip s = [] <-> all isspace s.
Proof.
  split.
  - intros E. destruct (strip_spec s) as [ws1 [ws2 [Es [H1 H2]]]].
    rewrite E in Es. rewrite Es. now apply Forall_app.
  - intros H. rewrite <- (app_nil_r s).
    change (s ++ []) with (s ++ [] ++ []).
    apply strip_unique; [assumption | constructor | now split].
Qed.

Lemma lower_nil_iff (s : str) : lower s = [] <-> s = [].
Proof. destruct s; split; (reflexivity || discriminate). Qed.

(** The skills selected from a list are determined by the list and the
    text. *)
Lemma selects_functional (t : str) (required matched1 matched2 : list str) :
  selects t required matched1 -> selects t required matched2 ->
  matched1 = matched2.
Proof.
  intros H1. revert matched2.
  induction H1 as [|s m required matched Hn Hm Ho _ IH
                   |s required matched Hb _ IH
                   |s m required matched Hn Ho _ IH];
    intros matched2 H2; inversion H2; subst.
  - reflexivity.
  - apply normal_form_iff in Hn. subst m.
    match goal with H : normal_form s _ |- _ => apply normal_form_iff in H; subst end.
    f_equal. now apply IH.
  - exfalso. apply Hm. apply normal_form_iff in Hn. subst m.
    apply lower_nil_iff. now apply strip_nil_iff.
  - exfalso. apply normal_form_iff in Hn. subst m.
    match goal with H : normal_form s _ |- _ => apply normal_form_iff in H; subst end.
    contradiction.
  - exfalso.
    match goal with
    | H : normal_form s ?m, N : ?m <> [] |- _ =>
        apply N; apply normal_form_iff in H; subst;
        apply lower_nil_iff; now apply strip_nil_iff
    end.
  - now apply IH.
  - exfalso.
    match goal with
    | H : normal_form s ?m, N : ~ occurs ?m t |- _ =>
        apply N; apply normal_form_iff in H; subst
    end.
    apply strip_nil_iff in Hb. rewrite Hb. now exists [], t.
  - exfalso. apply normal_form_iff in Hn. subst m.
    match goal with H : normal_form s _ |- _ => apply normal_form_iff in H; subst end.
    contradiction.
  - exfalso. apply Ho. apply normal_form_iff in Hn. subst m.
    match goal with H : all isspace s |- _ => apply strip_nil_iff in H; rewrite H end.
    now exists [], t.
  - now apply IH.
Qed.

(** The comprehensions of [score_resume], as one filter on the normal
    forms of the skills. *)
Lemma matched_as_filter (t : str) (required : list str) :
  filter (fun s => contains s t)
    (map (fun s => lower (strip s)) (filter (fun s => truthy (strip s)) required)) =
  filter (fun m => truthy m && contains m t)
    (map (fun s => lower (strip s)) required).
Proof.
  induction required as [|s l IH]; [reflexivity|]. cbn [filter map].
  rewrite truthy_lower. destruct (truthy (strip s)); cbn [filter map andb].
  - now rewrite IH.
  - exact IH.
Qed.

Lemma filter_selects (t : str) (required : list str) :
  selects t required
    (filter (fun m => truthy m && contains m t)
       (map (fun s => lower (strip s)) required)).
Proof.
  induction required as [|s l IH]; [constructor|]. cbn [filter map].
  destruct (truthy (lower (strip s))) eqn:T; cbn [andb].
  - destruct (contains (lower (strip s)) t) eqn:C.
    + apply sel_keep; [now apply normal_form_iff | now apply truthy_iff | | exact IH].
      now apply contains_iff.
    + apply (sel_absent t s (lower (strip s)));
        [now apply normal_form_iff | now apply contains_false_iff | exact IH].
  - apply sel_blank; [|exact IH].
    apply strip_nil_iff, lower_nil_iff. now destruct (lower (strip s)).
Qed.

(** C10. The matched skills are the normal forms of the supplied skills
    (each skill without the whitespace around it, in lowercase), the blank
    skills left out, and the ones that do not occur in the lowercased
    text: they are selected going through the supplied list in its order,
    and no other list is; so they come in the order of the supplied skills,
    and a skill supplied several times is matched once per occurrence. *)
Theorem matched_skills_normalised_in_order
    (text : str) (required : list str) (r : result) :
  score_resume text required = Some r ->
  let matched := matched_skills r in
  selects (lowercase text) required matched /\
  (forall matched', selects (lowercase text) required matched' -> matched' = matched) /\
  matched = matched_spec text required /\
  exists forms : list str,
    Forall2 normal_form required forms /\
    subseq matched forms /\
    (forall x, In x matched <->
               In x forms /\ x <> [] /\ occurs x (lowercase text)) /\
    (forall x, x <> [] -> occurs x (lowercase text) ->
               count_occ (list_eq_dec ascii_dec) matched x =
               count_occ (list_eq_dec ascii_dec) forms x).
Proof.
  intros R. cbv zeta. rewrite lowercase_lower.
  assert (S : selects (lower text) required (matched_skills r)).
  { rewrite (matched_skills_eq _ _ _ R), matched_as_filter. apply filter_selects. }
  split; [exact S|]. split.
  { intros matched' S'. exact (selects_functional _ _ _ _ S' S). }
  rewrite (matched_skills_eq _ _ _ R). split.
  { clear R S. unfold matched_spec. f_equal.
    induction required as [|s l IH]; simpl; [reflexivity|].
    destruct (truthy (strip s)); simpl; now rewrite IH. }
  rewrite matched_as_filter.
  exists (map (fun s => lower (strip s)) required). split; [|split; [|split]].
  - clear. induction required as [|s l IH]; constructor; [|exact IH].
    now apply normal_form_iff.
  - apply subseq_filter.
  - intros x. rewrite filter_In, andb_true_iff, truthy_iff, contains_iff. tauto.
  - intros x Hx Ho. apply count_occ_filter.
    apply andb_true_iff. split; [now apply truthy_iff | now apply contains_iff].
Qed.

Lemma matched_skills_normalised_in_order_witness :
  let text := py "Senior Python and SQL developer; python" in
  let required := [py "  Python "; py "   "; py "SQL"; py "Rust"; py "python"] in
  let matched := [py "python"; py "sql"; py "python"] in
  selects (lowercase text) required matched /\
  (forall matched', selects (lowercase text) required matched' -> matched' = matched).
Proof.
  intros text required matched.
  destruct (score_resume text required) as [r|] eqn:R;
    [|vm_compute in R; discriminate R].
  destruct (matched_skills_normalised_in_order text required r R) as [S [U _]].
  assert (M : matched_skills r = matched).
  { vm_compute in R. apply some_eq in R. now subst r. }
  rewrite M in S, U. split; assumption.
Defined.

End MatchedOrder.

(** ** The scorer on normalised input *)

Section ScorerInvariance.

Import PyNum.

Lemma norm_idem (s : str) :
  lower (strip (lower (strip s))) = lower (strip s).
Proof. now rewrite strip_lower, strip_idem, lower_idem. Qed.

Lemma norm_truthy (s : str) :
  truthy (strip (lower (strip s))) = truthy (strip s).
Proof. now rewrite strip_lower, strip_idem, truthy_lower. Qed.

Lemma normalised_skills_again (required : list str) :
  comprehension (fun s => lower (strip s)) (fun s => truthy (strip s))
    (map (fun s => lower (strip s)) required) =
  comprehension (fun s => lower (strip s)) (fun s => truthy (strip s)) required.
Proof.
  induction required as [|s l IH]; simpl; [reflexivity|].
  rewrite norm_truthy, norm_idem, IH.
  destruct (truthy (strip s)) eqn:T; [reflexivity|].
  destruct (strip s); [reflexivity | discriminate].
Qed.

(** X1. The case of the required skills and the whitespace around them
    do not count: the result is the same for the skills as given and for
    their trimmed, lowercased forms. *)
Theorem score_resume_skills_normalised (text : str) (required : list str) :
  score_resume text (map (fun s => lower (strip s)) required) =
  score_resume text required.
Proof.
  unfold score_resume. now rewrite normalised_skills_again.
Qed.

Lemma span_lower (p : ascii -> bool) (s a b : str) :
  (forall c, p (lower_char c) = p c) ->
  span p s = (a, b) -> span p (lower s) = (lower a, lower b).
Proof.
  intros Hp. revert a b. induction s as [|c s IH]; intros a b H; simpl in *.
  - now injection H as <- <-.
  - rewrite Hp. destruct (p c).
    + destruct (span p s) as [a' b']. injection H as <- <-.
      now rewrite (IH a' b' eq_refl).
    + now injection H as <- <-.
Qed.

Lemma eqb_i_lower_char (a c : ascii) : eqb_i a (lower_char c) = eqb_i a c.
Proof. unfold eqb_i. now rewrite lower_char_idem. Qed.

Lemma literal_i_lower (lit s : str) :
  literal_i lit (lower s) = option_map lower (literal_i lit s).
Proof.
  revert s. induction lit as [|a lit IH]; intros s; [reflexivity|].
  destruct s as [|c s]; [reflexivity|]. simpl.
  rewrite eqb_i_lower_char. destruct (eqb_i a c); [apply IH | reflexivity].
Qed.

Lemma alt_plus_years_lower (s : str) :
  alt_plus_years (lower s) = option_map lower_pair (alt_plus_years s).
Proof.
  unfold alt_plus_years.
  destruct (span is_decimal s) as [ds r1] eqn:E1.
  rewrite (span_lower _ _ _ _ is_decimal_lower_char E1). cbv beta iota.
  rewrite truthy_lower.
  destruct (truthy ds); [|reflexivity].
  destruct (span isspace r1) as [ws1 r2] eqn:E2.
  rewrite (span_lower _ _ _ _ isspace_lower_char E2). cbv beta iota.
  rewrite literal_i_lower.
  destruct (literal_i (py "+") r2) as [r3|]; [|reflexivity]. cbn [option_map].
  destruct (span isspace r3) as [ws2 r4] eqn:E3.
  rewrite (span_lower _ _ _ _ isspace_lower_char E3). cbv beta iota.
  rewrite literal_i_lower.
  destruct (literal_i (py "years") r4) as [r5|]; reflexivity.
Qed.

Lemma alt_space_years_lower (s : str) :
  alt_space_years (lower s) = option_map lower_pair (alt_space_years s).
Proof.
  unfold alt_space_years.
  destruct (span is_decimal s) as [ds r1] eqn:E1.
  rewrite (span_lower _ _ _ _ is_decimal_lower_char E1). cbv beta iota.
  rewrite truthy_lower.
  destruct (truthy ds); [|reflexivity].
  destruct (span isspace r1) as [ws r2] eqn:E2.
  rewrite (span_lower _ _ _ _ isspace_lower_char E2). cbv beta iota.
  rewrite truthy_lower.
  destruct (truthy ws); [|reflexivity].
  rewrite literal_i_lower.
  destruct (literal_i (py "years") r2) as [r3|]; reflexivity.
Qed.

Lemma alt_dash_year_lower (s : str) :
  alt_dash_year (lower s) = option_map lower_pair (alt_dash_year s).
Proof.
  unfold alt_dash_year.
  destruct (span is_decimal s) as [ds r1] eqn:E1.
  rewrite (span_lower _ _ _ _ is_decimal_lower_char E1). cbv beta iota.
  rewrite truthy_lower.
  destruct (truthy ds); [|reflexivity].
  rewrite literal_i_lower.
  destruct (literal_i (py "-year") r1) as [r2|]; reflexivity.
Qed.

Lemma match_years_lower (s : str) :
  match_years (lower s) =
  option_map (fun x => (lower_groups (fst x), lower (snd x))) (match_years s).
Proof.
  unfold match_years.
  rewrite alt_plus_years_lower, alt_space_years_lower, alt_dash_year_lower.
  destruct (alt_plus_years s) as [[d r]|]; [reflexivity|].
  destruct (alt_space_years s) as [[d r]|]; [reflexivity|].
  destruct (alt_dash_year s) as [[d r]|]; reflexivity.
Qed.

Lemma scan_years_lower (fuel : nat) (s : str) :
  scan match_years fuel (lower s) = map lower_groups (scan match_years fuel s).
Proof.
  revert s. induction fuel as [|fuel IH]; intros s; [reflexivity|].
  simpl. rewrite match_years_lower.
  destruct (match_years s) as [[g r]|]; simpl.
  - now rewrite IH.
  - destruct s as [|c s]; [reflexivity|]. simpl. apply IH.
Qed.

Lemma isdigit_fixed (t : str) : isdigit t = true -> lower t = t.
Proof.
  destruct t as [|c t]; [reflexivity|]. unfold isdigit.
  intros H. rewrite forallb_forall in H.
  unfold lower. rewrite <- (map_id (c :: t)) at 2.
  apply map_ext_in. intros x Hx. now apply isdigit_char_fixed, H.
Qed.

Lemma isdigit_lower (t : str) : isdigit (lower t) = isdigit t.
Proof.
  assert (A : forall l, forallb isdigit_char (map lower_char l) = forallb isdigit_char l).
  { induction l as [|x l IH]; [reflexivity|]. simpl.
    now rewrite isdigit_char_lower, IH. }
  destruct t as [|c t]; [reflexivity|]. unfold isdigit, lower.
  cbn [map]. rewrite <- (A (c :: t)). reflexivity.
Qed.

Lemma token_passes_lower (t : str) (rest : list str) :
  (if truthy (lower t) && isdigit (lower t) then lower t :: rest else rest) =
  (if truthy t && isdigit t then t :: rest else rest).
Proof.
  rewrite truthy_lower, isdigit_lower.
  destruct (truthy t); [|reflexivity]. simpl.
  destruct (isdigit t) eqn:D; [|reflexivity]. now rewrite (isdigit_fixed t D).
Qed.

Lemma tuple_tokens_lower (g : str * str * str) :
  tuple_tokens (lower_groups g) = tuple_tokens g.
Proof.
  destruct g as [[a b] c]. unfold tuple_tokens, lower_groups, passes. cbn [filter].
  now rewrite !token_passes_lower.
Qed.

Lemma tokens_found_lower (text : str) :
  tokens_found (lower text) = tokens_found text.
Proof.
  unfold tokens_found, findall.
  rewrite lower_length, scan_years_lower.
  induction (scan match_years (S (List.length text)) text) as [|g l IH]; [reflexivity|].
  simpl. now rewrite tuple_tokens_lower, IH.
Qed.

Lemma find_years_lower (text : str) :
  find_years_of_experience (lower text) = find_years_of_experience text.
Proof. now rewrite !find_years_eq, tokens_found_lower. Qed.

Lemma find_education_lower (text : str) :
  find_education (lower text) = find_education text.
Proof. unfold find_education. now rewrite lower_idem. Qed.

(** X2. The case of the resume text does not count: the result for a text
    and for its lowercased form are the same, years and education
    included. *)
Theorem score_resume_text_lowercased (text : str) (required : list str) :
  score_resume (lower text) required = score_resume text required.
Proof.
  unfold score_resume.
  now rewrite lower_idem, find_years_lower, find_education_lower.
Qed.

Lemma nothing_in_empty (skills : list str) :
  Forall (fun s => s <> []) skills ->
  comprehension (fun s => s) (fun s => contains s (lower [])) skills = [].
Proof.
  induction 1 as [|s l Hs _ IH]; [reflexivity|]. simpl.
  destruct s as [|c s]; [contradiction | exact IH].
Qed.

Lemma normalised_skills_nonempty (required : list str) :
  Forall (fun s => s <> [])
    (comprehension (fun s => lower (strip s)) (fun s => truthy (strip s)) required).
Proof.
  induction required as [|s l IH]; simpl; [constructor|].
  destruct (truthy (strip s)) eqn:T; [|exact IH].
  constructor; [|exact IH].
  destruct (strip s); [discriminate | discriminate].
Qed.

(** X3. On an empty text the scorer still answers, whatever the skills: no
    skill matched, no year, no education, and the score 0.0. *)
Theorem score_resume_empty_text (required : list str) :
  score_resume [] required =
  Some {| score := Float (S754_zero false);
          matched_skills := [];
          years := 0;
          education := py "Not specified" |}.
Proof.
  unfold score_resume.
  rewrite (nothing_in_empty _ (normalised_skills_nonempty required)).
  change (find_years_of_experience []) with (Some 0%Z). cbv beta iota.
  destruct (comprehension (fun s => lower (strip s)) _ required) as [|s0 l].
  - vm_compute. reflexivity.
  - cbn [List.length]. rewrite Nat2Z.inj_succ.
    destruct (Z.succ (Z.of_nat (List.length l))) as [|p|p] eqn:E; try lia.
    vm_compute. reflexivity.
Qed.

End ScorerInvariance.

(** ** Years and education in a longer text *)

Section LongerText.

Local Open Scope Z_scope.

Lemma years_match_app (s n rest b : str) :
  years_match s n rest -> years_match (s ++ b) n (rest ++ b).
Proof.
  intros H. destruct H as [n ws1 ws2 y rest Hn Hd H1 H2 Hy
                          |n ws y rest Hn Hd Hne Hw Hy
                          |n y rest Hn Hd Hy].
  - replace ((n ++ ws1 ++ py "+" ++ ws2 ++ y ++ rest) ++ b)
      with (n ++ ws1 ++ py "+" ++ ws2 ++ y ++ rest ++ b)
      by (now rewrite <- !app_assoc).
    now apply ym_plus.
  - replace ((n ++ ws ++ y ++ rest) ++ b) with (n ++ ws ++ y ++ rest ++ b)
      by (now rewrite <- !app_assoc).
    now apply ym_space.
  - replace ((n ++ y ++ rest) ++ b) with (n ++ y ++ rest ++ b)
      by (now rewrite <- !app_assoc).
    now apply ym_dash.
Qed.

Lemma years_occurrence_embedded (a t b n : str) :
  years_occurrence t n -> years_occurrence (a ++ t ++ b) n.
Proof.
  intros [pre [s [rest [E Hm]]]].
  exists (a ++ pre), (s ++ b), (rest ++ b). split.
  - rewrite E. now rewrite <- !app_assoc.
  - now apply years_match_app.
Qed.

(** X4. Text added before or after a resume text never lowers the years
    found in it: where the years of the longer text are returned, the
    years of the text itself are returned too, and are not more. *)
Theorem find_years_of_experience_embedded (a t b : str) (y' : Z) :
  find_years_of_experience (a ++ t ++ b) = Some y' ->
  exists y, find_years_of_experience t = Some y /\ y <= y'.
Proof.
  intros E. pose proof (find_years_nonneg _ _ E) as Hy'.
  apply find_years_some in E. destruct E as [-> Hlen].
  exists (largest (tokens_found t)). split.
  - apply find_years_returns. intros n Ho.
    apply Hlen, years_occurrence_embedded, Ho.
  - destruct (largest_found_max t) as [_ [[n [Ho ->]] | [_ ->]]]; [|exact Hy'].
    apply (largest_found_max (a ++ t ++ b)), years_occurrence_embedded, Ho.
Qed.

Lemma find_years_of_experience_embedded_witness :
  exists y, find_years_of_experience (py "7 years") = Some y /\ y <= 12.
Proof.
  apply (find_years_of_experience_embedded
           (py "Java, ") (py "7 years") (py ", then 12+ years in C") 12).
  vm_compute. reflexivity.
Defined.

(** X5. A text without a decimal digit has 0 years: numbers spelled out
    ("five years") are not recognised. *)
Theorem find_years_of_experience_needs_digits (text : str) :
  (forall c, In c text -> is_decimal c = false) ->
  find_years_of_experience text = Some 0.
Proof.
  intros H.
  assert (No : forall n, ~ years_occurrence text n).
  { intros n [pre [s [rest [E Hm]]]].
    destruct (years_match_head _ _ _ Hm) as [c [s' [Es Hc]]].
    rewrite (H c) in Hc; [discriminate|].
    rewrite E, Es. apply in_or_app. right. now left. }
  rewrite find_years_returns by (intros n Ho; now apply No in Ho).
  destruct (largest_found_max text) as [_ [[n [Ho _]] | [_ ->]]]; [|reflexivity].
  now apply No in Ho.
Qed.

Lemma find_years_of_experience_needs_digits_witness :
  find_years_of_experience (py "five years of Python, twenty-year career") = Some 0.
Proof.
  apply (find_years_of_experience_needs_digits
           (py "five years of Python, twenty-year career")).
  intros c Hc.
  assert (A : forallb (fun c => negb (is_decimal c))
                (py "five years of Python, twenty-year career") = true)
    by (vm_compute; reflexivity).
  rewrite forallb_forall in A. apply negb_true_iff. now apply A.
Defined.

(** X6. The years reported by the scorer are never negative. *)
Theorem years_never_negative (text : str) (required : list str) (r : result) :
  score_resume text required = Some r -> 0 <= years r.
Proof.
  intros R. apply score_resume_some in R. destruct R as [Y _].
  exact (find_years_nonneg _ _ Y).
Qed.

Lemma years_never_negative_witness :
  let text := py "5 years of Python and SQL experience, PhD in CS" in
  let required := [py "python"; py "sql"; py "aws"] in
  exists r : result,
    score_resume text required = Some r /\ years r = 5 /\ 0 <= years r.
Proof.
  intros text required. eexists.
  split; [vm_compute; reflexivity|]. split; [reflexivity|].
  apply (years_never_negative text required). vm_compute. reflexivity.
Defined.

(** X20. [find_years_of_experience] raises, [int] refusing a number,
    exactly when the pattern occurs in the text with a number of more than
    4300 digits; on every other text it returns. *)
Theorem find_years_of_experience_value_error (text : str) :
  find_years_of_experience text = None <->
  exists n, years_occurrence text n /\
            (PyNum.int_max_str_digits < List.length n)%nat.
Proof. apply find_years_none. Qed.

(** X21. [score_resume] returns a result exactly when no occurrence of the
    pattern of the years has a number of more than 4300 digits, whatever
    the required skills; so it does on every text of at most 4300
    characters. *)
Theorem score_resume_returns (text : str) (required : list str) :
  ((exists r, score_resume text required = Some r) <->
   (forall n, years_occurrence text n ->
              (List.length n <= PyNum.int_max_str_digits)%nat)) /\
  ((List.length text <= PyNum.int_max_str_digits)%nat ->
   exists r, score_resume text required = Some r).
Proof.
  assert (A : (forall n, years_occurrence text n ->
                 (List.length n <= PyNum.int_max_str_digits)%nat) ->
              exists r, score_resume text required = Some r).
  { intros H. destruct (score_resume text required) as [r|] eqn:R; [now exists r|].
    apply score_resume_none, find_years_none in R.
    destruct R as [n [Ho Hn]]. specialize (H n Ho). lia. }
  split; [split; [|exact A]|].
  - intros [r R] n Ho. apply score_resume_some in R. destruct R as [Y _].
    apply find_years_some in Y. now apply Y.
  - intros Hlen. apply A. intros n Ho.
    apply years_occurrence_length in Ho. lia.
Qed.

Example score_resume_long_number :
  score_resume long_years [py "python"] = None.
Proof. vm_compute. reflexivity. Qed.

End LongerText.

Section EducationInLongerText.

Lemma occurs_embedded (m a t b : str) : occurs m t -> occurs m (a ++ t ++ b).
Proof.
  intros [pre [suf E]]. exists (a ++ pre), (suf ++ b).
  rewrite E. now rewrite <- !app_assoc.
Qed.

Lemma contains_embedded (m a t b : str) :
  contains m (lower t) = true -> contains m (lower (a ++ t ++ b)) = true.
Proof.
  rewrite !contains_iff, !lower_app. apply occurs_embedded.
Qed.

(** X7. Text added before or after a resume text never lowers the
    education found in it ("Not specified" < "Bachelor" < "Master" <
    "PhD"). *)
Theorem find_education_embedded (a t b : str) :
  (edu_rank (find_education t) <= edu_rank (find_education (a ++ t ++ b)))%nat.
Proof.
  unfold find_education.
  assert (HP : contains (py "phd") (lower t) || contains (py "ph.d") (lower t)
               || contains (py "doctorate") (lower t) = true ->
               contains (py "phd") (lower (a ++ t ++ b))
               || contains (py "ph.d") (lower (a ++ t ++ b))
               || contains (py "doctorate") (lower (a ++ t ++ b)) = true)
    by (rewrite !orb_true_iff; intuition (auto using contains_embedded)).
  assert (HM : contains (py "master") (lower t) || contains (py "ms ") (lower t)
               || contains (py "m.sc") (lower t)
               || contains (py "Post-graduate") (lower t) = true ->
               contains (py "master") (lower (a ++ t ++ b))
               || contains (py "ms ") (lower (a ++ t ++ b))
               || contains (py "m.sc") (lower (a ++ t ++ b))
               || contains (py "Post-graduate") (lower (a ++ t ++ b)) = true)
    by (rewrite !orb_true_iff; intuition (auto using contains_embedded)).
  assert (HB : contains (py "bachelor") (lower t) || contains (py "b.s") (lower t)
               || contains (py "bs ") (lower t)
               || contains (py "under-graduate") (lower t)
               || contains (py "be") (lower t) = true ->
               contains (py "bachelor") (lower (a ++ t ++ b))
               || contains (py "b.s") (lower (a ++ t ++ b))
               || contains (py "bs ") (lower (a ++ t ++ b))
               || contains (py "under-graduate") (lower (a ++ t ++ b))
               || contains (py "be") (lower (a ++ t ++ b)) = true)
    by (rewrite !orb_true_iff; intuition (auto using contains_embedded)).
  repeat match goal with
         | |- context [if ?c then _ else _] => destruct c
         end;
    try (specialize (HP eq_refl); discriminate);
    try (specialize (HM eq_refl); discriminate);
    try (specialize (HB eq_refl); discriminate);
    vm_compute; lia.
Qed.

(** X8. The answer is "Master" exactly when no PhD marker occurs in the
    lowercased text and "master", "ms " or "m.sc" does: the fourth marker,
    "Post-graduate", is written with a capital letter and is never found in
    a lowercased text. *)
Theorem find_education_master_iff (text : str) :
  find_education text = py "Master" <->
  ~ has_marker phd_markers (lower text) /\
  (occurs (py "master") (lower text) \/ occurs (py "ms ") (lower text) \/
   occurs (py "m.sc") (lower text)).
Proof.
  unfold find_education. rewrite post_graduate_never_matches, orb_false_r.
  rewrite <- (test_false_iff _ _ (phd_test_iff (lower text))).
  rewrite <- !contains_iff.
  destruct (contains (py "phd") (lower text) || contains (py "ph.d") (lower text)
            || contains (py "doctorate") (lower text)).
  - split; [discriminate | intros [H _]; discriminate].
  - destruct (contains (py "master") (lower text)),
             (contains (py "ms ") (lower text)),
             (contains (py "m.sc") (lower text)); simpl;
      try (split; [auto | reflexivity]; fail).
    split.
    + destruct (_ || _); discriminate.
    + intros [_ [H | [H | H]]]; discriminate.
Qed.

End EducationInLongerText.

(** ** The values of the score *)

Section ScoreValues.

Import PyNum.
Local Open Scope Z_scope.

(** X9. The score has one decimal: it is the [int] 100, when the sum of the
    three parts is above 100, or the float nearest to k/10 for a whole
    number k of tenths from 0 to 1000. *)
Theorem score_one_decimal (text : str) (required : list str) (r : result) :
  score_resume text required = Some r ->
  score r = Int 100 \/
  exists k, 0 <= k <= 1000 /\ score r = Float (float_of_tenths false k).
Proof.
  intros R. unfold score_resume in R.
  destruct (find_years_of_experience text) as [y|] eqn:Y; [|discriminate R].
  apply some_eq in R. subst r. cbn [score].
  match goal with
  | |- round1 (min (add (add ?ss _) (Int ?e)) _) = _ \/ _ =>
      destruct (total_not_negative ss y e) as [t [Et Ht]]
  end.
  - destruct (comprehension (fun s => lower (strip s))
                (fun s => truthy (strip s)) required)
      as [|s0 skills]; [reflexivity|].
    apply skills_score_not_negative; simpl List.length; lia.
  - now apply (find_years_nonneg text).
  - destruct (str_eqb (find_education text) (py "PhD")); [simpl; auto|].
    destruct (str_eqb (find_education text) (py "Master")); [simpl; auto|].
    destruct (str_eqb (find_education text) (py "Bachelor")); simpl; auto.
  - rewrite Et.
    destruct (min_100_cases t Ht) as [-> | [-> [q [Ev [H0 H1]]]]].
    + left. reflexivity.
    + right. exists (round_half_even (q * 10)). split.
      * now apply round_half_even_range.
      * unfold round1. rewrite Ev.
        replace (sign_of t) with false
          by (destruct t; simpl in *; congruence || contradiction).
        reflexivity.
Qed.

Lemma score_one_decimal_witness :
  let text := py "5 years of Python and SQL experience, PhD in CS" in
  let required := [py "python"; py "sql"; py "aws"] in
  exists r : result,
    score_resume text required = Some r /\
    (score r = Int 100 \/
     exists k, 0 <= k <= 1000 /\ score r = Float (float_of_tenths false k)).
Proof.
  intros text required. eexists.
  split; [vm_compute; reflexivity|].
  apply (score_one_decimal text required). vm_compute. reflexivity.
Defined.

End ScoreValues.

(** ** File names *)

Section Extensions.

(** X10. Only what follows the last dot of a file name counts, without
    regard to case: a name ending in a dot and [ext] is allowed exactly when
    [ext] lowercased is "pdf" or "docx", whatever comes before; a name
    without a dot is not allowed. *)
Theorem allowed_file_last_extension (stem ext : str) :
  ~ In "."%char ext ->
  allowed_file (stem ++ py "." ++ ext) = mem (lower ext) ALLOWED_EXTENSIONS /\
  allowed_file ext = false.
Proof.
  intros Hn. unfold allowed_file. split.
  - rewrite (proj2 (rsplit_dot_some (stem ++ py "." ++ ext) stem ext)
               (conj eq_refl Hn)).
    replace (contains (py ".") (stem ++ py "." ++ ext)) with true; [reflexivity|].
    symmetry. apply contains_iff. now exists stem, ext.
  - replace (contains (py ".") ext) with false; [reflexivity|].
    symmetry. apply contains_false_iff. intros [pre [suf E]].
    apply Hn. rewrite E. apply in_or_app. right. now left.
Qed.

Lemma allowed_file_last_extension_witness :
  allowed_file (py "cv.final" ++ py "." ++ py "PDF")
    = mem (lower (py "PDF")) ALLOWED_EXTENSIONS /\
  allowed_file (py "PDF") = false.
Proof.
  apply (allowed_file_last_extension (py "cv.final") (py "PDF")).
  intros H. vm_compute in H. intuition discriminate.
Defined.

End Extensions.

(** ** The skills of a submission *)

Section SubmittedSkills.

Lemma subseq_refl {A} (l : list A) : subseq l l.
Proof. induction l; now constructor. Qed.

Lemma subseq_firstn {A} (n : nat) (l : list A) : subseq (firstn n l) l.
Proof.
  revert n. induction l as [|x l IH]; intros [|n]; simpl; try constructor; auto.
  clear. induction l; now constructor.
Qed.

Lemma subseq_In {A} (l1 l2 : list A) (x : A) : subseq l1 l2 -> In x l1 -> In x l2.
Proof.
  induction 1 as [|y l1 l2 _ IH|y l1 l2 _ IH]; simpl; intros H; auto.
  destruct H; auto.
Qed.

(** What [findall] reports for the pattern of the words stands in the text
    and is made of two or more characters of the class. *)
Lemma scan_word_sound (fuel : nat) (s w : str) :
  In w (scan match_word fuel s) ->
  occurs w s /\ all is_word_char w /\ (2 <= List.length w)%nat.
Proof.
  revert s. induction fuel as [|fuel IH]; intros s H; simpl in H; [contradiction|].
  unfold match_word in H.
  destruct (span is_word_char s) as [w0 r] eqn:E.
  apply span_spec in E. destruct E as [E [Hw _]].
  destruct (2 <=? List.length w0)%nat eqn:L.
  - destruct H as [<- | H].
    + repeat split; [now exists [], r | assumption | now apply Nat.leb_le].
    + destruct (IH _ H) as [[pre [suf Er]] Hrest]. split; [|assumption].
      exists (w0 ++ pre), suf. rewrite E, Er. now rewrite <- app_assoc.
  - destruct s as [|c s]; [contradiction|].
    destruct (IH _ H) as [[pre [suf Er]] Hrest]. split; [|assumption].
    exists (c :: pre), suf. now rewrite Er.
Qed.

Lemma derived_skills_sound (job_description w : str) :
  In w (derived_skills job_description) ->
  mem (lower w) stop = false /\ occurs w job_description /\
  all is_word_char w /\ (2 <= List.length w)%nat.
Proof.
  unfold derived_skills. intros H.
  apply (subseq_In _ _ _ (subseq_firstn _ _)) in H.
  rewrite comprehension_id_filter in H. apply filter_In in H.
  destruct H as [H Hs]. apply negb_true_iff in Hs.
  split; [assumption|]. now apply (scan_word_sound _ _ _ H).
Qed.

(** X11. Whatever the job description, at most 10 skills are derived from
    it; each is a stretch of two or more letters, [+] or [#] of the
    description and no stopword, and they come in the order of the
    description. *)
Theorem derived_skills_keywords (job_description : str) :
  (List.length (derived_skills job_description) <= 10)%nat /\
  subseq (derived_skills job_description) (findall match_word job_description) /\
  forall w, In w (derived_skills job_description) ->
            mem (lower w) stop = false /\ occurs w job_description /\
            all is_word_char w /\ (2 <= List.length w)%nat.
Proof.
  split; [|split].
  - unfold derived_skills. apply firstn_le_length.
  - unfold derived_skills. eapply subseq_trans; [apply subseq_firstn|].
    rewrite comprehension_id_filter. apply subseq_filter.
  - apply derived_skills_sound.
Qed.

Lemma split_on_no_sep (sep : ascii) (s cur p : str) :
  ~ In sep cur -> In p (split_on sep cur s) -> ~ In sep p.
Proof.
  revert cur. induction s as [|c s IH]; intros cur Hc H; simpl in H.
  - destruct H as [<- | []]. intros Hin. now apply in_rev in Hin.
  - destruct (Ascii.eqb_spec c sep) as [->|Hne].
    + destruct H as [<- | H].
      * intros Hin. now apply in_rev in Hin.
      * apply (IH []); [intros [] | assumption].
    + apply (IH (c :: cur)); [|assumption].
      intros [E | Hin]; [now apply Hne | now apply Hc].
Qed.

Lemma form_skills_sound (skills_raw s : str) :
  In s (form_skills skills_raw) ->
  s <> [] /\ trimmed s /\ ~ In ","%char s.
Proof.
  unfold form_skills. rewrite comprehension_map_filter, in_map_iff.
  intros [p [<- Hp]]. apply filter_In in Hp. destruct Hp as [Hp Ht].
  split; [now apply truthy_iff|]. split; [apply strip_trimmed|].
  intros Hin. apply strip_incl in Hin.
  revert Hin. apply (split_on_no_sep "," skills_raw [] p); [intros [] | exact Hp].
Qed.

(** X12. Each skill read from the form field is non-empty, has no comma in
    it and no whitespace at either end: blank entries between commas are
    dropped. *)
Theorem form_skills_clean (skills_raw s : str) :
  In s (form_skills skills_raw) ->
  s <> [] /\ trimmed s /\ ~ In ","%char s.
Proof. apply form_skills_sound. Qed.

Lemma form_skills_clean_witness :
  py "SQL" <> [] /\ trimmed (py "SQL") /\ ~ In ","%char (py "SQL").
Proof.
  apply (form_skills_clean (py " Python, ,SQL ,") (py "SQL")).
  vm_compute. right. left. reflexivity.
Defined.

End SubmittedSkills.

(** ** The column [matches] *)

Section MatchesColumn.

Lemma split_on_app (sep : ascii) (x cur rest : str) :
  ~ In sep x ->
  split_on sep cur (x ++ rest) = split_on sep (rev x ++ cur) rest.
Proof.
  revert cur. induction x as [|c x IH]; intros cur Hn; [reflexivity|].
  simpl. destruct (Ascii.eqb_spec c sep) as [->|Hne].
  - exfalso. apply Hn. now left.
  - rewrite IH by (intros H; apply Hn; now right).
    now rewrite <- app_assoc.
Qed.

(** [",".join(xs).split(",")] gives [xs] back when [xs] is not empty and
    none of its strings holds a comma. *)
Lemma split_join (sep : ascii) (xs : list str) :
  xs <> [] -> Forall (fun x => ~ In sep x) xs ->
  split sep (join [sep] xs) = xs.
Proof.
  unfold split. intros Hne H. induction H as [|x l Hx Hl IH]; [contradiction|].
  destruct l as [|y l].
  - simpl. rewrite <- (app_nil_r x) at 1. rewrite split_on_app by assumption.
    simpl. now rewrite app_nil_r, rev_involutive.
  - change (join [sep] (x :: y :: l)) with (x ++ sep :: join [sep] (y :: l)).
    rewrite split_on_app by assumption. simpl.
    rewrite Ascii.eqb_refl, app_nil_r, rev_involutive.
    f_equal. apply IH. discriminate.
Qed.

Lemma word_has_no_comma (w : str) : all is_word_char w -> ~ In ","%char w.
Proof.
  intros H Hin. unfold all in H. rewrite Forall_forall in H.
  specialize (H _ Hin). discriminate.
Qed.

Lemma lower_has_no_comma (s : str) : ~ In ","%char s -> ~ In ","%char (lower s).
Proof.
  intros H Hin. unfold lower in Hin. apply in_map_iff in Hin.
  destruct Hin as [c [E Hc]]. apply comma_lower_char in E. now subst.
Qed.

Lemma matched_have_no_comma (text : str) (skills : list str) (r : result) :
  score_resume text skills = Some r ->
  Forall (fun s => ~ In ","%char s) skills ->
  Forall (fun m => ~ In ","%char m) (matched_skills r).
Proof.
  intros R H. apply Forall_forall. intros m Hm.
  apply (In_matched_skills _ _ _ _ R) in Hm. destruct Hm as [s [Hs [_ [-> _]]]].
  rewrite Forall_forall in H. apply lower_has_no_comma.
  intros Hin. apply strip_incl in Hin. now apply (H s Hs).
Qed.

Lemma submitted_skills_have_no_comma (rq : request) :
  Forall (fun s => ~ In ","%char s) (submitted_skills rq).
Proof.
  apply Forall_forall. intros s Hs. unfold submitted_skills in Hs.
  destruct (form_skills _) as [|s0 l] eqn:F.
  - apply derived_skills_sound in Hs. now apply word_has_no_comma.
  - rewrite <- F in Hs. now apply form_skills_sound in Hs.
Qed.

Variable secure_filename : str -> str.
Variable save_ok : list (str * str) -> str -> str -> bool.
Variable extract_text_from_pdf : list (str * str) -> str -> option str.
Variable docx2txt_process : list (str * str) -> str -> option str.

(** What a result page says of the request it answers: a text was
    extracted, it was scored with the skills of the request, and one row was
    appended with the values of the page. *)
Lemma submit_page_inversion
    (w w' : world) (rq : request) (ck : clock) (p : result_page) :
  submit secure_filename save_ok extract_text_from_pdf docx2txt_process w rq ck = (Page p, w') ->
  exists text result r,
    text <> [] /\
    score_resume text (submitted_skills rq) = Some result /\
    p_score p = score result /\
    p_matched_skills p = matched_skills result /\
    p_years p = years result /\
    p_education p = education result /\
    Db.rows (db w') = Db.rows (db w) ++ [r] /\
    Db.matches r = join (py ",") (p_matched_skills p).
Proof.
  unfold submit.
  destruct (get (files rq) (py "resume")) as [f|]; [|discriminate].
  destruct (negb (truthy (up_filename f))); [discriminate|].
  destruct (negb (allowed_file (up_filename f))); [discriminate|].
  destruct (negb (save_ok _ _ _)); [discriminate|].
  destruct (rsplit_dot _) as [[stem ext0]|]; [|discriminate].
  match goal with
  | |- context [truthy ?t] => destruct t as [|c text] eqn:X
  end; [discriminate|]. cbn [truthy negb].
  destruct (score_resume _ _) as [result|] eqn:R; [|discriminate].
  destruct (Db.insert _ _) as [db'|] eqn:I; [|discriminate].
  intros H. injection H as <- <-.
  destruct (insert_appends _ _ _ I) as [r [Er [Hs _]]].
  exists (c :: text), result, r.
  split; [discriminate|]. split; [exact R|]. repeat (split; [reflexivity|]).
  split; [exact Er|]. apply Hs.
Qed.

(** X13. The matched skills shown on the result page can be read back from
    the row that was stored: splitting the column [matches] at the commas
    gives the list again, since no skill of a submission holds a comma; an
    empty list is stored as the empty string. *)
Theorem matches_column_reads_back
    (w w' : world) (rq : request) (ck : clock) (p : result_page) :
  submit secure_filename save_ok extract_text_from_pdf docx2txt_process w rq ck = (Page p, w') ->
  exists r,
    Db.rows (db w') = Db.rows (db w) ++ [r] /\
    (p_matched_skills p <> [] -> split "," (Db.matches r) = p_matched_skills p) /\
    (p_matched_skills p = [] -> Db.matches r = []).
Proof.
  intros H.
  destruct (submit_page_inversion _ _ _ _ _ H)
    as [text [result [r [_ [R [_ [Em [_ [_ [Er Hm]]]]]]]]]].
  exists r. split; [exact Er|]. rewrite Hm. split.
  - intros Hne. apply (split_join "," _ Hne). rewrite Em.
    apply (matched_have_no_comma _ _ _ R), submitted_skills_have_no_comma.
  - intros ->. reflexivity.
Qed.

End MatchesColumn.

Lemma matches_column_reads_back_witness :
  exists r,
    Db.rows (db (snd (submit (fun s => s) (fun _ _ _ => true)
                        (fun _ _ => Some (py "5 years of Python and SQL"))
                        (fun _ _ => None)
                        {| db := Db.empty; saved := [] |}
                        {| form := [(py "skills", py "Python, sql ,AWS")];
                           files := [(py "resume",
                                      {| up_filename := py "cv.pdf";
                                         up_data := py "%PDF" |})] |}
                        {| now_compact := py "20240101000000";
                           now_iso := py "2024-01-01T00:00:00";
                           now_page := py "2024-01-01 00:00 UTC" |})))
      = Db.rows Db.empty ++ [r] /\
    split "," (Db.matches r) = [py "python"; py "sql"].
Proof.
  destruct (submit (fun s => s) (fun _ _ _ => true)
              (fun _ _ => Some (py "5 years of Python and SQL"))
              (fun _ _ => None)
              {| db := Db.empty; saved := [] |}
              {| form := [(py "skills", py "Python, sql ,AWS")];
                 files := [(py "resume",
                            {| up_filename := py "cv.pdf";
                               up_data := py "%PDF" |})] |}
              {| now_compact := py "20240101000000";
                 now_iso := py "2024-01-01T00:00:00";
                 now_page := py "2024-01-01 00:00 UTC" |})
    as [resp w'] eqn:S.
  assert (Hp : exists p, resp = Page p /\ p_matched_skills p = [py "python"; py "sql"]).
  { vm_compute in S. injection S as <- _. eexists. split; reflexivity. }
  destruct Hp as [p [-> Hm]].
  destruct (matches_column_reads_back _ _ _ _ _ _ _ _ _ S) as [r [Er [Hr _]]].
  exists r. split; [exact Er|]. rewrite <- Hm. apply Hr. rewrite Hm. discriminate.
Defined.

(** ** What the handlers do to the table and to the upload folder *)

Section Effects.

Variable secure_filename : str -> str.
Variable save_ok : list (str * str) -> str -> str -> bool.
Variable extract_text_from_pdf : list (str * str) -> str -> option str.
Variable docx2txt_process : list (str * str) -> str -> option str.

(** What [submit] leaves behind, case by case. *)
Lemma submit_effect (w : world) (rq : request) (ck : clock) :
  let (resp, w') :=
    submit secure_filename save_ok extract_text_from_pdf docx2txt_process w rq ck in
  ((resp = Redirect msg_attach \/ resp = Redirect msg_unsupported) /\ w' = w) \/
  (exists f,
     get (files rq) (py "resume") = Some f /\
     ((save_ok (saved w) (stored_path secure_filename ck f) (up_data f) = false /\
       resp = Failure /\ w' = w) \/
      (save_ok (saved w) (stored_path secure_filename ck f) (up_data f) = true /\
       saved w' = (stored_path secure_filename ck f, up_data f) :: saved w /\
       ((resp = Redirect msg_no_text /\ db w' = db w) \/
        (resp = Failure /\ db w' = db w) \/
        (exists p v, resp = Page p /\ Db.insert (db w) v = Some (db w')))))).
Proof.
  unfold submit, stored_path.
  destruct (get (files rq) (py "resume")) as [f|]; [|left; auto].
  destruct (negb (truthy (up_filename f))); [left; auto|].
  destruct (negb (allowed_file (up_filename f))); [left; auto|].
  destruct (save_ok _ _ _) eqn:S; cbn [negb];
    [|right; exists f; split; [reflexivity | left; auto]].
  destruct (rsplit_dot _) as [[stem ext0]|];
    [|right; exists f; split;
      [reflexivity | right; split; [exact S | split; [reflexivity | auto]]]].
  destruct (negb (truthy _));
    [right; exists f; split;
     [reflexivity | right; split; [exact S | split; [reflexivity | auto]]]|].
  destruct (score_resume _ _) as [result|];
    [|right; exists f; split;
      [reflexivity | right; split; [exact S | split; [reflexivity | auto]]]].
  destruct (Db.insert _ _) as [db'|] eqn:I;
    [|right; exists f; split;
      [reflexivity | right; split; [exact S | split; [reflexivity | auto]]]].
  right. exists f. split; [reflexivity|]. right.
  split; [exact S|]. split; [reflexivity|].
  right. right. eexists. eexists. split; [reflexivity|]. exact I.
Qed.


(** X14. The table only grows: a request to [submit] leaves every row as
    it is and appends one row when it is answered with the result page,
    none otherwise; [admin] changes nothing at all. *)
Theorem table_is_append_only (w : world) (rq : request) (ck : clock) :
  let (resp, w') :=
    submit secure_filename save_ok extract_text_from_pdf docx2txt_process w rq ck in
  (exists new, Db.rows (db w') = Db.rows (db w) ++ new /\
               ((exists p, resp = Page p) -> List.length new = 1%nat) /\
               ((forall p, resp <> Page p) -> new = [])) /\
  snd (admin w) = w.
Proof.
  pose proof (submit_effect w rq ck) as H.
  destruct (submit _ _ _ _ w rq ck) as [resp w'].
  split; [|reflexivity].
  destruct H as [[H ->] | [f [_ [[_ [-> ->]]
                                | [_ [_ [[-> E] | [[-> E] | [p [v [-> I]]]]]]]]]]].
  - exists []. rewrite app_nil_r. repeat split.
    intros [p Hp]. destruct H as [H | H]; rewrite H in Hp; discriminate.
  - exists []. rewrite app_nil_r. repeat split. intros [p Hp]. discriminate.
  - exists []. rewrite app_nil_r, E. repeat split. intros [p Hp]. discriminate.
  - exists []. rewrite app_nil_r, E. repeat split. intros [p Hp]. discriminate.
  - destruct (insert_appends _ _ _ I) as [r [Er _]].
    exists [r]. repeat split; [exact Er|]. intros Hn. now contradiction (Hn p).
Qed.


Lemma place_on_top (r x : Db.row) (l : list Db.row) :
  later_or_same r x -> Db.place x (r :: l) = r :: Db.place x l.
Proof. unfold later_or_same. simpl. now intros ->. Qed.

Lemma listing_with_latest (rows : list Db.row) (r : Db.row) :
  Forall (later_or_same r) rows ->
  fold_right Db.place [] (rows ++ [r]) = r :: fold_right Db.place [] rows.
Proof.
  induction 1 as [|x l Hx _ IH]; [reflexivity|].
  simpl. rewrite IH. now apply place_on_top.
Qed.

(** X16. Most recent first: a row inserted with a [created_at] after those
    of all the rows in the table comes first in the listing, followed by the
    rows that were there, latest first. *)
Theorem latest_is_listed_first (d d' : Db.t) (v : Db.values) :
  Db.insert d v = Some d' ->
  (forall x, In x (Db.rows d) ->
             str_leb (Db.created_at x) (Db.v_created_at v) = true /\
             Db.created_at x <> Db.v_created_at v) ->
  exists r rest,
    Db.supplied r v /\
    Db.select_all_desc d' = r :: rest /\
    Permutation rest (Db.rows d) /\ StronglySorted later_or_same rest.
Proof.
  intros H Hall. destruct (insert_appends _ _ _ H) as [r [Er [Hs _]]].
  exists r, (Db.select_all_desc d). split; [assumption|].
  split; [|split; [apply select_all_desc_perm | apply select_all_desc_sorted]].
  unfold Db.select_all_desc. rewrite Er. apply listing_with_latest.
  apply Forall_forall. intros x Hx. unfold later_or_same.
  destruct Hs as [_ [_ [_ [_ [_ [_ [_ [_ ->]]]]]]]]. now apply (Hall x Hx).
Qed.

Lemma sorted_lt_snoc (l : list Z) (last : Z) :
  StronglySorted Z.lt l -> Forall (fun i => (i <= last)%Z) l ->
  StronglySorted Z.lt (l ++ [(last + 1)%Z]).
Proof.
  induction 1 as [|x l Hl IH Hx]; intros Hb; simpl.
  - repeat constructor.
  - inversion Hb; subst. constructor; [auto|].
    apply Forall_app. split; [assumption|]. repeat constructor. lia.
Qed.

Lemma sorted_lt_NoDup (l : list Z) : StronglySorted Z.lt l -> NoDup l.
Proof.
  induction 1 as [|x l _ IH Hx]; constructor; [|assumption].
  intros Hin. rewrite Forall_forall in Hx. specialize (Hx _ Hin). lia.
Qed.

Lemma insert_keeps_ids_fresh (d d' : Db.t) (v : Db.values) :
  ids_fresh d -> Db.insert d v = Some d' -> ids_fresh d'.
Proof.
  unfold ids_fresh, ids, Db.insert. intros [Hs Hb].
  destruct (Db.fits_int64 _); [|discriminate]. intros H. injection H as <-.
  cbn [Db.rows Db.last_id]. rewrite map_app. cbn [map Db.id]. split.
  - now apply sorted_lt_snoc.
  - apply Forall_app. split.
    + revert Hb. apply Forall_impl. intros; lia.
    + repeat constructor. lia.
Qed.

(** X17. The ids of the rows are all different and grow with the
    insertions: this holds of the empty table and is kept by every request
    to [submit]. *)
Theorem ids_stay_fresh (w : world) (rq : request) (ck : clock) :
  ids_fresh (db w) ->
  let w' := snd (submit secure_filename save_ok extract_text_from_pdf docx2txt_process
                   w rq ck) in
  ids_fresh (db w') /\ NoDup (ids (db w')).
Proof.
  intros H. pose proof (submit_effect w rq ck) as E.
  destruct (submit _ _ _ _ w rq ck) as [resp w']. cbn [snd].
  assert (F : ids_fresh (db w')).
  { destruct E as [[_ ->] | [f [_ [[_ [_ ->]]
                                  | [_ [_ [[_ ->] | [[_ ->] | [p [v [_ I]]]]]]]]]]];
      try assumption.
    exact (insert_keeps_ids_fresh _ _ _ H I). }
  split; [exact F|]. apply sorted_lt_NoDup, F.
Qed.

End Effects.

(** A request whose upload the operating system refuses to write: the
    handler fails, with nothing saved and no row. *)
Example submit_save_refused :
  let w := {| db := Db.empty; saved := [] |} in
  submit (fun s => s) (fun _ _ _ => false)
         (fun _ _ => Some (py "5 years of Python")) (fun _ _ => None)
         w
         {| form := [(py "skills", py "Python")];
            files := [(py "resume",
                       {| up_filename := py "cv.pdf"; up_data := py "%PDF" |})] |}
         {| now_compact := py "20240101000000";
            now_iso := py "2024-01-01T00:00:00";
            now_page := py "2024-01-01 00:00 UTC" |}
  = (Failure, w).
Proof. vm_compute. reflexivity. Qed.

Lemma latest_is_listed_first_witness :
  let old := {| Db.id := 1; Db.name := py "Ada"; Db.email := py "";
                Db.filename := py "a.pdf"; Db.score := PyNum.float_of_int 0;
                Db.matches := py ""; Db.years_experience := 0;
                Db.education := py "PhD"; Db.job_description := py "";
                Db.created_at := py "2024-01-01T09:30:00" |} in
  let d := {| Db.rows := [old]; Db.last_id := 1 |} in
  let v := {| Db.v_name := py "Bob"; Db.v_email := py "";
              Db.v_filename := py "b.pdf"; Db.v_score := PyNum.Int 100;
              Db.v_matches := py "sql"; Db.v_years_experience := 3;
              Db.v_education := py "Master"; Db.v_job_description := py "";
              Db.v_created_at := py "2024-01-01T09:30:00.000250" |} in
  exists d' r rest, Db.insert d v = Some d' /\ Db.supplied r v /\
                    Db.select_all_desc d' = r :: rest /\
                    Permutation rest (Db.rows d).
Proof.
  intros old d v. eexists.
  destruct (latest_is_listed_first d _ v eq_refl) as [r [rest [Hs [Hl [Hp _]]]]].
  - intros x [<- | []]. split; [vm_compute; reflexivity|].
    intros E. vm_compute in E. discriminate.
  - exists r, rest. split; [reflexivity|].
    split; [exact Hs|]. split; [exact Hl | exact Hp].
Defined.

Lemma ids_stay_fresh_witness :
  let w' := snd (submit (fun s => s) (fun _ _ _ => true) (fun _ _ => Some (py "5 years of Python"))
                   (fun _ _ => None)
                   {| db := Db.empty; saved := [] |}
                   {| form := [(py "skills", py "Python")];
                      files := [(py "resume",
                                 {| up_filename := py "cv.pdf";
                                    up_data := py "%PDF" |})] |}
                   {| now_compact := py "20240101000000";
                      now_iso := py "2024-01-01T00:00:00";
                      now_page := py "2024-01-01 00:00 UTC" |}) in
  ids_fresh (db w') /\ NoDup (ids (db w')).
Proof.
  apply (ids_stay_fresh (fun s => s) (fun _ _ _ => true) (fun _ _ => Some (py "5 years of Python"))
           (fun _ _ => None) {| db := Db.empty; saved := [] |}).
  split; constructor.
Defined.

Lemma submitted_record_is_listed_witness :
  exists p w' rows r,
    submit (fun s => s) (fun _ _ _ => true) (fun _ _ => Some (py "5 years of Python, PhD"))
           (fun _ _ => None)
           {| db := Db.empty; saved := [] |}
           {| form := [(py "name", py " Ada "); (py "skills", py "Python")];
              files := [(py "resume",
                         {| up_filename := py "cv.pdf"; up_data := py "%PDF" |})] |}
           {| now_compact := py "20240101000000";
              now_iso := py "2024-01-01T00:00:00";
              now_page := py "2024-01-01 00:00 UTC" |} = (Page p, w') /\
    admin w' = (Admin rows, w') /\ In r rows /\
    Db.name r = py "Ada" /\ Db.education r = py "PhD" /\
    Db.years_experience r = 5%Z /\ Db.matches r = py "python".
Proof.
  destruct (submit (fun s => s) (fun _ _ _ => true) (fun _ _ => Some (py "5 years of Python, PhD"))
              (fun _ _ => None)
              {| db := Db.empty; saved := [] |}
              {| form := [(py "name", py " Ada "); (py "skills", py "Python")];
                 files := [(py "resume",
                            {| up_filename := py "cv.pdf"; up_data := py "%PDF" |})] |}
              {| now_compact := py "20240101000000";
                 now_iso := py "2024-01-01T00:00:00";
                 now_page := py "2024-01-01 00:00 UTC" |})
    as [resp w'] eqn:S.
  assert (Hp : exists p, resp = Page p /\ p_name p = py "Ada" /\
                         p_education p = py "PhD" /\ p_years p = 5%Z /\
                         join (py ",") (p_matched_skills p) = py "python").
  { vm_compute in S. injection S as <- _. eexists. repeat split. }
  destruct Hp as [p [-> [Hn [He [Hy Hm]]]]].
  destruct (submitted_record_is_listed _ _ _ _ _ _ _ _ _ S)
    as [rows [r [Ha [Hin [En [_ [_ [_ [Em [Ey [Ee _]]]]]]]]]]].
  exists p, w', rows, r. repeat split; try assumption; congruence.
Defined.

(** ** Matching by containment *)

Section Containment.

(** X19. No required skill is missed: a skill that is not blank and whose
    trimmed, lowercased form stands anywhere in the lowercased text, be it
    inside a longer word, is among the matched skills. *)
Theorem occurring_skill_is_matched
    (text : str) (required : list str) (r : result) (s : str) :
  score_resume text required = Some r ->
  In s required -> strip s <> [] ->
  occurs (lower (strip s)) (lower text) ->
  In (lower (strip s)) (matched_skills r).
Proof.
  intros R Hs Hne Ho. apply (In_matched_skills _ _ _ _ R). now exists s.
Qed.

Lemma occurring_skill_is_matched_witness :
  let text := py "Exported mango pulp" in
  let required := [py "AWS"; py " Go "] in
  exists r : result,
    score_resume text required = Some r /\
    In (lower (strip (py " Go "))) (matched_skills r).
Proof.
  intros text required. eexists.
  split; [vm_compute; reflexivity|].
  apply (occurring_skill_is_matched text required _ (py " Go ")).
  - vm_compute. reflexivity.
  - right. left. reflexivity.
  - vm_compute. discriminate.
  - apply contains_iff. vm_compute. reflexivity.
Defined.

End Containment.
